(** * Follower reads and write-too-old: a shallow embedding

    This development embeds [pkg/kv/kvserver/replica_follower_read.go]
    (the functions [canServeFollowerRead] and [maxClosed]) and the MVCC
    write-ordering contract exercised by
    [pkg/storage/testdata/mvcc_histories/write_too_old].

    Effects of the Go code (the follower-read counter, the refresh requests
    sent to the closed-timestamp clients, the queries made to the
    closed-timestamp provider) are threaded through a state monad over the
    record [kvserver.Effects].  Tracing calls ([log.Eventf]) are not
    modelled: they have no influence on the returned value. *)

From Stdlib Require Import ZArith Bool List String Lia.
From ExtLib Require Import Structures.Monad Structures.MonadState.
From ExtLib Require Import Data.Monads.StateMonad.
Import ListNotations.
Import MonadNotation.

Local Open Scope Z_scope.
Local Open Scope monad_scope.

(* ===================================================================== *)
(** ** Hybrid-logical-clock timestamps *)
(* ===================================================================== *)

Module hlc.

(** Modelled from the spec: the package [pkg/util/hlc] is not among the
    sources.  A timestamp is a pair (wall time : int64, logical : int32),
    totally ordered (wall time first, then logical).  Only comparisons and
    maxima are taken, so no wrap-around can occur and [Z] is used. *)
Record Timestamp : Set := mkTimestamp { WallTime : Z; Logical : Z }.

(** [hlc.Timestamp{}], the zero value. *)
Definition zero : Timestamp := mkTimestamp 0 0.

(** Modelled from the spec: [t.Less(s)], the strict part of the order. *)
Definition Less (t s : Timestamp) : bool :=
  (WallTime t <? WallTime s)
  || ((WallTime t =? WallTime s) && (Logical t <? Logical s)).

(** Modelled from the spec: [t.LessEq(s)], "comparable with <=". *)
Definition LessEq (t s : Timestamp) : bool :=
  (WallTime t <? WallTime s)
  || ((WallTime t =? WallTime s) && (Logical t <=? Logical s)).

(** Modelled from the spec: [t.Forward(s)] replaces [t] by [s] when that
    moves it forward, "Forward(other) = max".  The receiver is mutated in
    Go; here the new value is returned. *)
Definition Forward (t s : Timestamp) : Timestamp :=
  if Less t s then s else t.

(** Modelled from the spec: the successor used for write-too-old retries,
    "wall time unchanged, logical component bumped by 1". *)
Definition Next (t : Timestamp) : Timestamp :=
  mkTimestamp (WallTime t) (Logical t + 1).

(** Equality of timestamps, component by component. *)
Definition eqb (t s : Timestamp) : bool :=
  (WallTime t =? WallTime s) && (Logical t =? Logical s).

(** Timestamps produced by a clock have non-negative components. *)
Definition nonneg (t : Timestamp) : Prop :=
  0 <= WallTime t /\ 0 <= Logical t.

End hlc.

(* ===================================================================== *)
(** ** Request, lease and error data *)
(* ===================================================================== *)

Module roachpb.

Definition NodeID := Z.
Definition StoreID := Z.
Definition RangeID := Z.

(** Modelled from the spec: the replica types of the data model.  The
    declaration itself ([roachpb.ReplicaType]) is not among the sources;
    the three servable types are the ones named at line 61 of
    [replica_follower_read.go]. *)
Inductive ReplicaType : Set :=
| VOTER_FULL
| VOTER_INCOMING
| VOTER_OUTGOING
| NON_VOTER
| LEARNER.

Record ReplicaDescriptor : Set := mkReplicaDescriptor {
  NodeID_of : NodeID;
  StoreID_of : StoreID;
  GetType : ReplicaType
}.

Inductive LeaseType : Set :=
| LeaseExpiration
| LeaseEpoch.

Definition LeaseType_eqb (a b : LeaseType) : bool :=
  match a, b with
  | LeaseExpiration, LeaseExpiration => true
  | LeaseEpoch, LeaseEpoch => true
  | _, _ => false
  end.

(** Modelled from the spec: [roachpb.Lease] is declared outside the
    sources.  The fields are those of the data model: type, epoch, start,
    holder ([Replica]) and the optional expiration (a nil-able pointer in
    the Go code, tested at line 125). *)
Record Lease : Set := mkLease {
  Lease_Type : LeaseType;
  Epoch : Z;
  Start : hlc.Timestamp;
  Replica : ReplicaDescriptor;
  Expiration : option hlc.Timestamp
}.

(** Modelled from the spec: a transaction carries the top of its
    uncertainty interval and whether it is locking. *)
Record Transaction : Set := mkTransaction {
  MaxTimestamp : hlc.Timestamp;
  Txn_IsLocking : bool
}.

(** Modelled from the spec: a batch is (timestamp, optional Txn,
    isLocking(), isAllTransactional()); the two methods are computed from
    the requests of the batch, which this core never inspects, and are
    therefore fields here. *)
Record BatchRequest : Set := mkBatchRequest {
  Timestamp : hlc.Timestamp;
  Txn : option Transaction;
  IsLocking : bool;
  IsAllTransactional : bool
}.

(** Modelled from the spec: the error carries (leaseHolder, lease).
    [LeaseHolder] is a pointer compared with [nil] at line 45, hence an
    option. *)
Record NotLeaseHolderError : Set := mkNotLeaseHolderError {
  LeaseHolder : option ReplicaDescriptor;
  Lease_of : Lease
}.

(** A plain Go [error], e.g. the failure of [GetReplicaDescriptor]. *)
Definition GoError := string.

(** What [GetDetail] may return: the detail the follower-read path looks
    for, or any other one. *)
Inductive ErrorDetail : Set :=
| NotLeaseHolderDetail (lErr : NotLeaseHolderError)
| OtherDetail (cause : GoError).

(** A (non-nil) [*roachpb.Error]; a [nil] error is [None] in
    [option Error]. *)
Record Error : Set := mkError { GetDetail : option ErrorDetail }.

(** Modelled from the spec: [roachpb.NewError(err)] wraps a Go error into
    a generic [Error]. *)
Definition NewError (err : GoError) : Error :=
  mkError (Some (OtherDetail err)).

(** The type assertion of line 43: [lErr, ok] from [pErr.GetDetail()],
    [ok] being [Some]. *)
Definition asNotLeaseHolderError (pErr : Error) : option NotLeaseHolderError :=
  match GetDetail pErr with
  | Some (NotLeaseHolderDetail lErr) => Some lErr
  | _ => None
  end.

End roachpb.

(* ===================================================================== *)
(** ** The replica and the follower-read decision *)
(* ===================================================================== *)

(** The closed-timestamp protocol's integer types ([ctpb.Epoch],
    [ctpb.LAI]). *)
Module ctpb.
Definition Epoch := Z.
Definition LAI := Z.
End ctpb.

Module kvserver.
Import roachpb.

(** The mutable state of the collaborators touched by the decision:
    [r.store.metrics.FollowerReadsCount], the calls received by
    [r.store.cfg.ClosedTimestamp.Clients] and the queries received by
    [r.store.cfg.ClosedTimestamp.Provider] (oldest first). *)
Record Effects : Type := mkEffects {
  FollowerReadsCount : Z;
  ClientRequests : list (NodeID * RangeID);
  ProviderQueries : list (NodeID * RangeID * ctpb.Epoch * ctpb.LAI)
}.

(** What the decision reads from the replica [r]: [r.RangeID], the fields
    read under [r.mu], the outcome of [r.GetReplicaDescriptor()], the
    cluster setting [FollowerReadsEnabled] and the closed-timestamp
    provider (a parameter: its code is not among the sources). *)
Record Replica : Type := mkReplica {
  RangeID_of : RangeID;
  mu_state_LeaseAppliedIndex : ctpb.LAI;
  mu_state_Lease : roachpb.Lease;
  mu_initialMaxClosed : hlc.Timestamp;
  GetReplicaDescriptor : ReplicaDescriptor + GoError;
  FollowerReadsEnabled : bool;
  Provider_MaxClosed :
    NodeID -> RangeID -> ctpb.Epoch -> ctpb.LAI -> hlc.Timestamp
}.

Definition M := state Effects.

(** [r.store.cfg.ClosedTimestamp.Provider.MaxClosed(n, rng, e, lai)]. *)
Definition Provider_MaxClosed_call (r : Replica)
    (n : NodeID) (rng : RangeID) (e : ctpb.Epoch) (lai : ctpb.LAI)
    : M hlc.Timestamp :=
  w <- get ;;
  put (mkEffects (FollowerReadsCount w) (ClientRequests w)
                 (ProviderQueries w ++ [(n, rng, e, lai)])) ;;
  ret (Provider_MaxClosed r n rng e lai).

(** [r.store.cfg.ClosedTimestamp.Clients.Request(n, rng)]. *)
Definition Clients_Request (n : NodeID) (rng : RangeID) : M unit :=
  w <- get ;;
  put (mkEffects (FollowerReadsCount w) (ClientRequests w ++ [(n, rng)])
                 (ProviderQueries w)).

(** [r.store.metrics.FollowerReadsCount.Inc(d)]. *)
Definition FollowerReadsCount_Inc (d : Z) : M unit :=
  w <- get ;;
  put (mkEffects (FollowerReadsCount w + d) (ClientRequests w)
                 (ProviderQueries w)).

(** [maxClosed], lines 119-133. *)
Definition maxClosed (r : Replica) : M (hlc.Timestamp * bool) :=
  let lai := mu_state_LeaseAppliedIndex r in
  let lease := mu_state_Lease r in
  let initialMaxClosed := mu_initialMaxClosed r in
  match Expiration lease with
  | Some _ => ret (hlc.zero, false)
  | None =>
      maxClosed <- Provider_MaxClosed_call r
                     (NodeID_of (roachpb.Replica lease)) (RangeID_of r)
                     (Epoch lease) lai ;;
      let maxClosed := hlc.Forward maxClosed (Start lease) in
      let maxClosed := hlc.Forward maxClosed initialMaxClosed in
      ret (maxClosed, true)
  end.

(** The [switch] of lines 60-65: the replica types that fall through. *)
Definition canServeType (typ : ReplicaType) : bool :=
  match typ with
  | VOTER_FULL | VOTER_INCOMING | NON_VOTER => true
  | _ => false
  end.

(** Lines 67-70: the request timestamp, forwarded to the transaction's
    [MaxTimestamp] when there is a transaction. *)
Definition effectiveTimestamp (ba : BatchRequest) : hlc.Timestamp :=
  let ts := Timestamp ba in
  match Txn ba with
  | Some txn => hlc.Forward ts (MaxTimestamp txn)
  | None => ts
  end.

(** Lines 46-48: the conjuncts of [eligible] that do not look at the
    error. *)
Definition batchCanBeFollowerRead (r : Replica) (ba : BatchRequest) : bool :=
  (negb (IsLocking ba) && IsAllTransactional ba)
  && (match Txn ba with
      | None => true
      | Some txn => negb (Txn_IsLocking txn)
      end)
  && FollowerReadsEnabled r.

(** Lines 43-48: [eligible]. *)
Definition eligible (r : Replica) (ba : BatchRequest) (pErr : Error) : bool :=
  match asNotLeaseHolderError pErr with
  | Some lErr =>
      match LeaseHolder lErr with
      | Some _ =>
          LeaseType_eqb (Lease_Type (Lease_of lErr)) LeaseEpoch
          && batchCanBeFollowerRead r ba
      | None => false
      end
  | None => false
  end.

(** [canServeFollowerRead], lines 40-106.  [pErr] is the error of the
    failed lease check, hence not [nil].  The result [None] is Go's [nil];
    [Some e] is the error [e].  The short-circuit conjunction of lines 44-48
    is [eligible]; it is evaluated here by the nested matches, which also
    bind [lErr.LeaseHolder] for line 83. *)
Definition canServeFollowerRead
    (r : Replica) (ba : BatchRequest) (pErr : Error) : M (option Error) :=
  match asNotLeaseHolderError pErr with
  | None => ret (Some pErr)
  | Some lErr =>
    match LeaseHolder lErr with
    | None => ret (Some pErr)
    | Some leaseHolder =>
      if negb (LeaseType_eqb (Lease_Type (Lease_of lErr)) LeaseEpoch
               && batchCanBeFollowerRead r ba)
      then ret (Some pErr)
      else
        match GetReplicaDescriptor r with
        | inr err => ret (Some (NewError err))
        | inl repDesc =>
          if negb (canServeType (GetType repDesc))
          then ret (Some pErr)
          else
            let ts := effectiveTimestamp ba in
            mc <- maxClosed r ;;
            let maxClosed := fst mc in
            let canServeFollowerRead := hlc.LessEq ts maxClosed in
            if negb canServeFollowerRead
            then
              Clients_Request (NodeID_of leaseHolder) (RangeID_of r) ;;
              ret (Some pErr)
            else
              FollowerReadsCount_Inc 1 ;;
              ret None
        end
    end
  end.

End kvserver.

(* ===================================================================== *)
(** ** The MVCC write-ordering contract *)
(* ===================================================================== *)

Module storage.

Definition Key := string.

(** A stored value: bytes, or the tombstone left by a delete (printed
    [/<empty>] in the test file). *)
Inductive Value : Set :=
| Tombstone
| Bytes (b : string).

(** Modelled from the spec: a version is (key, timestamp, value or
    tombstone).  Intents are out of scope: every stored version is a
    committed one. *)
Record MVCCVersion : Set := mkVersion {
  Key_of : Key;
  Timestamp_of : hlc.Timestamp;
  Value_of : Value
}.

(** The versions of a range, the most recently written first (the order of
    the [data:] lines of the test file). *)
Definition Store := list MVCCVersion.

(** The error of the test file: "write at timestamp [Timestamp] too old;
    wrote at [ActualTimestamp]". *)
Record WriteTooOldError : Set := mkWriteTooOldError {
  Timestamp : hlc.Timestamp;
  ActualTimestamp : hlc.Timestamp
}.

Definition versionsOf (s : Store) (k : Key) : list MVCCVersion :=
  filter (fun v => String.eqb (Key_of v) k) s.

(** The versions of [k] at a timestamp greater than or equal to [ts]. *)
Definition conflicting (s : Store) (k : Key) (ts : hlc.Timestamp)
    : list MVCCVersion :=
  filter (fun v => hlc.LessEq ts (Timestamp_of v)) (versionsOf s k).

(** The greatest timestamp among [t0] and the versions of [l]. *)
Definition latest (t0 : hlc.Timestamp) (l : list MVCCVersion) : hlc.Timestamp :=
  fold_left (fun acc v => hlc.Forward acc (Timestamp_of v)) l t0.

(** Modelled from the spec: [Put(key, timestamp, value)] returns the
    applied timestamp and an optional error ([pkg/storage/mvcc.go] is not
    among the sources).  It fails with a [WriteTooOldError] when a version
    of [key] exists at a timestamp >= the requested one; [actual] is the
    successor of the latest conflicting version's timestamp, and the write
    is still applied at [actual]. *)
Definition Put (s : Store) (k : Key) (ts : hlc.Timestamp) (v : Value)
    : Store * hlc.Timestamp * option WriteTooOldError :=
  match conflicting s k ts with
  | [] => (mkVersion k ts v :: s, ts, None)
  | c :: cs =>
      let actual := hlc.Next (latest (Timestamp_of c) cs) in
      (mkVersion k actual v :: s, actual,
       Some (mkWriteTooOldError ts actual))
  end.

(** Modelled from the spec: a delete is a put of a tombstone. *)
Definition Delete (s : Store) (k : Key) (ts : hlc.Timestamp)
    : Store * hlc.Timestamp * option WriteTooOldError :=
  Put s k ts Tombstone.

(** The version of [k] stored at exactly [ts], if any. *)
Definition versionAt (s : Store) (k : Key) (ts : hlc.Timestamp)
    : option MVCCVersion :=
  find (fun v => String.eqb (Key_of v) k && hlc.eqb (Timestamp_of v) ts) s.

(** Wall time in seconds, as the test file prints it:
    [seconds 44 l] is [44.000000000,l]. *)
Definition seconds (n : Z) (logical : Z) : hlc.Timestamp :=
  hlc.mkTimestamp (n * 1000000000) logical.

End storage.

(* ===================================================================== *)
(** ** Vocabulary of the specification *)
(* ===================================================================== *)

Module followerread.
Import roachpb kvserver.

(** The maximum closed timestamp of the range: the first component of
    what [maxClosed] returns. *)
Definition rangeMaxClosed (r : Replica) (w : Effects) : hlc.Timestamp :=
  fst (evalState (maxClosed r) w).

(** The [ok] flag of [maxClosed]. *)
Definition rangeMaxClosedOk (r : Replica) (w : Effects) : bool :=
  snd (evalState (maxClosed r) w).

(** The watermark the provider holds for the replica's current lease. *)
Definition providerClosed (r : Replica) : hlc.Timestamp :=
  Provider_MaxClosed r (NodeID_of (roachpb.Replica (mu_state_Lease r)))
    (RangeID_of r) (Epoch (mu_state_Lease r)) (mu_state_LeaseAppliedIndex r).

(** The effects once [maxClosed] has queried the provider. *)
Definition queried (r : Replica) (w : Effects) : Effects :=
  mkEffects (FollowerReadsCount w) (ClientRequests w)
    (ProviderQueries w ++
       [(NodeID_of (roachpb.Replica (mu_state_Lease r)), RangeID_of r,
         Epoch (mu_state_Lease r), mu_state_LeaseAppliedIndex r)]).

(** The prior error carries a [NotLeaseHolderError] whose lease is
    epoch-based. *)
Definition carriesEpochLease (pErr : Error) : Prop :=
  exists lErr, asNotLeaseHolderError pErr = Some lErr
               /\ Lease_Type (Lease_of lErr) = LeaseEpoch.

(** The prior error carries a [NotLeaseHolderError] that names a lease
    holder. *)
Definition namesLeaseHolder (pErr : Error) : Prop :=
  exists lErr leaseHolder, asNotLeaseHolderError pErr = Some lErr
                           /\ LeaseHolder lErr = Some leaseHolder.

(** The batch is non-locking and all-transactional, and so is its
    transaction if it has one. *)
Definition nonLockingRead (ba : BatchRequest) : Prop :=
  IsLocking ba = false /\ IsAllTransactional ba = true
  /\ (forall txn, Txn ba = Some txn -> Txn_IsLocking txn = false).

(** The local replica resolves its descriptor and is of a type that may
    serve follower reads. *)
Definition servingReplica (r : Replica) : Prop :=
  exists repDesc, GetReplicaDescriptor r = inl repDesc
                  /\ canServeType (GetType repDesc) = true.

(** The conditions on the request and the replica, the error apart. *)
Definition requestServable (r : Replica) (ba : BatchRequest) (w : Effects)
    : Prop :=
  nonLockingRead ba
  /\ FollowerReadsEnabled r = true
  /\ servingReplica r
  /\ hlc.LessEq (effectiveTimestamp ba) (rangeMaxClosed r w) = true.

(** Eligibility with the conditions on the error limited to "carries a
    [NotLeaseHolderError] whose lease is epoch-based". *)
Definition eligibleWithoutLeaseHolder
    (r : Replica) (ba : BatchRequest) (pErr : Error) (w : Effects) : Prop :=
  carriesEpochLease pErr /\ requestServable r ba w.

(** Eligibility as the code decides it: the error must also name a lease
    holder. *)
Definition eligibleForFollowerRead
    (r : Replica) (ba : BatchRequest) (pErr : Error) (w : Effects) : Prop :=
  carriesEpochLease pErr /\ namesLeaseHolder pErr /\ requestServable r ba w.

(** One of the conditions of lines 43-48 fails, the lease holder apart. *)
Definition gateFails (r : Replica) (ba : BatchRequest) (pErr : Error) : Prop :=
  asNotLeaseHolderError pErr = None
  \/ (exists lErr, asNotLeaseHolderError pErr = Some lErr
                   /\ Lease_Type (Lease_of lErr) <> LeaseEpoch)
  \/ IsLocking ba = true
  \/ IsAllTransactional ba = false
  \/ (exists txn, Txn ba = Some txn /\ Txn_IsLocking txn = true)
  \/ FollowerReadsEnabled r = false.

(** Every condition checked before the timestamp comparison holds. *)
Definition reachesTimestampCheck
    (r : Replica) (ba : BatchRequest) (pErr : Error) : Prop :=
  eligible r ba pErr = true /\ servingReplica r.

End followerread.

(** Concrete replicas, requests and errors: the scenarios of the
    specification. *)
Module scenarios.
Import roachpb kvserver.

Definition at_ (wall : Z) : hlc.Timestamp := hlc.mkTimestamp wall 0.

Definition leaseHolder : ReplicaDescriptor := mkReplicaDescriptor 1 1 VOTER_FULL.
Definition follower (typ : ReplicaType) : ReplicaDescriptor :=
  mkReplicaDescriptor 2 2 typ.

(** An epoch-based lease at epoch 5 held by node 1. *)
Definition epochLease (start : hlc.Timestamp) : Lease :=
  mkLease LeaseEpoch 5 start leaseHolder None.

(** An expiration-based lease held by node 1. *)
Definition expirationLease : Lease :=
  mkLease LeaseExpiration 0 (at_ 10) leaseHolder (Some (at_ 1000)).

(** A provider that knows one watermark [c], for (node 1, range 7,
    epoch 5), and nothing else. *)
Definition provider (c : hlc.Timestamp)
    : NodeID -> RangeID -> ctpb.Epoch -> ctpb.LAI -> hlc.Timestamp :=
  fun n rng e _ =>
    if (n =? 1) && (rng =? 7) && (e =? 5) then c else hlc.zero.

Definition replica (lease : Lease) (desc : ReplicaDescriptor + GoError)
    (enabled : bool) (c : hlc.Timestamp) : Replica :=
  mkReplica 7 12 lease hlc.zero desc enabled (provider c).

(** Range 7 under the epoch-5 lease started at 10, closed up to 100, seen
    from a VOTER_FULL follower. *)
Definition follower100 : Replica :=
  replica (epochLease (at_ 10)) (inl (follower VOTER_FULL)) true (at_ 100).

(** The same range just after a lease transfer: the lease starts at 200
    and no watermark has been received for it. *)
Definition afterTransfer : Replica :=
  replica (epochLease (at_ 200)) (inl (follower VOTER_FULL)) true hlc.zero.

(** The same range under an expiration-based lease. *)
Definition underExpiration : Replica :=
  replica expirationLease (inl (follower VOTER_FULL)) true (at_ 100).

(** The replica has been removed from the range. *)
Definition removed : Replica :=
  replica (epochLease (at_ 10)) (inr "replica not found"%string) true (at_ 100).

Definition learner : Replica :=
  replica (epochLease (at_ 10)) (inl (follower LEARNER)) true (at_ 100).

(** A non-transactional, non-locking read at wall time [t]. *)
Definition read (t : Z) : BatchRequest :=
  mkBatchRequest (at_ t) None false true.

(** A non-locking transactional read at [t] whose uncertainty interval
    ends at [tmax]. *)
Definition txnRead (t tmax : Z) : BatchRequest :=
  mkBatchRequest (at_ t) (Some (mkTransaction (at_ tmax) false)) false true.

Definition lockingRead (t : Z) : BatchRequest :=
  mkBatchRequest (at_ t) None true true.

Definition notLeaseHolder (holder : option ReplicaDescriptor) (lease : Lease)
    : Error :=
  mkError (Some (NotLeaseHolderDetail (mkNotLeaseHolderError holder lease))).

(** The routing error for the epoch-5 lease. *)
Definition pErr5 : Error := notLeaseHolder (Some leaseHolder) (epochLease (at_ 10)).

(** The same error without a lease holder. *)
Definition pErrNoHolder : Error := notLeaseHolder None (epochLease (at_ 10)).

Definition pErrExpiration : Error :=
  notLeaseHolder (Some leaseHolder) expirationLease.

Definition w0 : Effects := mkEffects 0 [] [].

(** The store of the test file after its first block:
    [data: "a"/44.000000000,0 -> /BYTES/abc]. *)
Definition storeA44 : storage.Store :=
  [storage.mkVersion "a"%string (storage.seconds 44 0)
                     (storage.Bytes "abc"%string)].

End scenarios.

(* ===================================================================== *)
(** ** The decision seen from its callers *)
(* ===================================================================== *)

Module decision.
Import roachpb kvserver followerread.

(** The five ways out of [canServeFollowerRead], each with the value
    returned and the effects left behind. *)
Inductive Outcome (r : Replica) (ba : BatchRequest) (pErr : Error)
    (w : Effects) : option Error -> Effects -> Prop :=
| Ineligible :
    eligible r ba pErr = false ->
    Outcome r ba pErr w (Some pErr) w
| DescriptorFailure err :
    eligible r ba pErr = true ->
    GetReplicaDescriptor r = inr err ->
    Outcome r ba pErr w (Some (NewError err)) w
| WrongType repDesc :
    eligible r ba pErr = true ->
    GetReplicaDescriptor r = inl repDesc ->
    canServeType (GetType repDesc) = false ->
    Outcome r ba pErr w (Some pErr) w
| TooLow lErr leaseHolder :
    asNotLeaseHolderError pErr = Some lErr ->
    LeaseHolder lErr = Some leaseHolder ->
    reachesTimestampCheck r ba pErr ->
    hlc.LessEq (effectiveTimestamp ba) (rangeMaxClosed r w) = false ->
    Outcome r ba pErr w (Some pErr)
      (mkEffects (FollowerReadsCount w)
         (ClientRequests w ++ [(NodeID_of leaseHolder, RangeID_of r)])
         (ProviderQueries (execState (maxClosed r) w)))
| Served :
    reachesTimestampCheck r ba pErr ->
    hlc.LessEq (effectiveTimestamp ba) (rangeMaxClosed r w) = true ->
    Outcome r ba pErr w None
      (mkEffects (FollowerReadsCount w + 1) (ClientRequests w)
         (ProviderQueries (execState (maxClosed r) w))).

(** The replica [r] once its closed-timestamp provider answers [p]. *)
Definition withProvider (r : Replica)
    (p : NodeID -> RangeID -> ctpb.Epoch -> ctpb.LAI -> hlc.Timestamp)
    : Replica :=
  mkReplica (RangeID_of r) (mu_state_LeaseAppliedIndex r) (mu_state_Lease r)
    (mu_initialMaxClosed r) (GetReplicaDescriptor r) (FollowerReadsEnabled r) p.

(** The provider query [maxClosed] makes for the replica's current lease. *)
Definition leaseQuery (r : Replica)
    : NodeID * RangeID * ctpb.Epoch * ctpb.LAI :=
  (NodeID_of (roachpb.Replica (mu_state_Lease r)), RangeID_of r,
   Epoch (mu_state_Lease r), mu_state_LeaseAppliedIndex r).


(** How many of the results are [nil]. *)
Fixpoint servedCount (results : list (option Error)) : Z :=
  match results with
  | [] => 0
  | None :: rest => 1 + servedCount rest
  | Some _ :: rest => servedCount rest
  end.

End decision.

(* ===================================================================== *)
(** ** ALTER TABLE ... SET LOCALITY *)
(* ===================================================================== *)

(** The syntax tree of the statement, as far as
    [alter_table_locality.go] reads it. *)
Module tree.

Definition Name := string.

(** The three levels named by the switches of [startExec]; any other value
    takes their [default] branch. *)
Inductive LocalityLevel : Set :=
| LocalityLevelGlobal
| LocalityLevelTable
| LocalityLevelRow
| LocalityLevelUnknown.

Record Locality : Set := mkLocality {
  LocalityLevel_of : LocalityLevel;
  TableRegion : Name;
  RegionalByRowColumn : Name
}.

(** [Name] stands for the table name, both as it is resolved and as
    [n.Name.String()] prints it; [Locality] is a pointer. *)
Record AlterTableLocality : Set := mkAlterTableLocality {
  Name_of : string;
  IfExists : bool;
  Locality_of : option Locality
}.

Inductive Direction : Set :=
| DefaultDirection
| Ascending
| Descending.

Record IndexElem : Set := mkIndexElem {
  Column : Name;
  Direction_of : Direction
}.

Record AlterTableAlterPrimaryKey : Set := mkAlterTableAlterPrimaryKey {
  PrimaryKey_Name : Name;
  Columns : list IndexElem
}.

End tree.

(** The descriptor messages, as far as the file reads them. *)
Module descpb.

Definition ID := Z.
Definition MutationID := Z.

(** The cases of the type switch on [LocalityConfig.Locality]; a nil or
    unknown one takes the [default] branch. *)
Inductive isTableDescriptor_LocalityConfig_Locality : Set :=
| TableDescriptor_LocalityConfig_Global_
| TableDescriptor_LocalityConfig_RegionalByTable_
| TableDescriptor_LocalityConfig_RegionalByRow_
| TableDescriptor_LocalityConfig_unset.

(** [contents] stands for the fields of the message, which the file only
    passes on. *)
Record TableDescriptor_LocalityConfig : Set := mkLocalityConfig {
  Locality : isTableDescriptor_LocalityConfig_Locality;
  contents : string
}.

Inductive IndexDescriptor_Direction : Set :=
| IndexDescriptor_ASC
| IndexDescriptor_DESC
| IndexDescriptor_Direction_other (v : Z).

Record IndexDescriptor : Set := mkIndexDescriptor {
  Index_Name : string;
  ColumnNames : list string;
  ColumnDirections : list IndexDescriptor_Direction
}.

Record PrimaryKeySwap_LocalityConfigSwap : Set := mkLocalityConfigSwap {
  OldLocalityConfig : TableDescriptor_LocalityConfig;
  NewLocalityConfig : TableDescriptor_LocalityConfig
}.

Record ColumnDescriptor : Set := mkColumnDescriptor {
  ColumnDescriptor_Name : string;
  Type_Oid : Z
}.

End descpb.

Module sql.
Import tree descpb.

(** [tabledesc.Mutable]: the fields the file reads.  [LocalityConfig] is a
    pointer. *)
Record Mutable : Set := mkMutable {
  Mutable_ID : ID;
  GetName : string;
  GetParentID : ID;
  LocalityConfig : option TableDescriptor_LocalityConfig;
  PrimaryIndex : IndexDescriptor;
  ClusterVersion_NextMutationID : MutationID
}.

(** [dbdesc.Immutable]: [RegionConfig] is a pointer, dereferenced at the
    call of [applyZoneConfigForMultiRegionTable]. *)
Record Immutable : Set := mkImmutable {
  Immutable_ID : ID;
  RegionConfig : option string
}.

(** An argument of a formatted message. *)
Inductive Arg : Set :=
| ArgString (s : string)
| ArgLocality (l : tree.Locality)
| ArgLocalityConfig (c : option TableDescriptor_LocalityConfig)
| ArgDirection (d : IndexDescriptor_Direction).

Inductive pgcode : Set :=
| InsufficientPrivilege
| InvalidTableDefinition.

(** The errors the file builds, and [OtherError] for whatever else a
    collaborator may return. *)
Inductive error : Set :=
| AssertionFailedf (format : string) (args : list Arg)
| unimplemented_NewWithIssue (issue : Z) (msg : string)
| unimplemented_New (feature : string) (msg : string)
| pgerror_Newf (code : pgcode) (format : string) (args : list Arg)
| OtherError (msg : string).

(** What a Go function of result type [error] does: it returns [nil], returns
    an error, or panics (nil pointer dereference, index out of range). *)
Inductive result : Set :=
| Nil
| Err (e : error)
| Panic.

(** The code this file calls and that is not among the sources, taken as
    parameters: the methods of the table and database descriptors, the
    planner's services and two constants of package [tree]. *)
Record Collaborators : Type := mkCollaborators {
  IsLocalityGlobal : Mutable -> bool;
  IsLocalityRegionalByTable : Mutable -> bool;
  SetTableLocalityRegionalByTable : Name -> Mutable -> Mutable;
  SetTableLocalityGlobal : Mutable -> Mutable;
  FormatTableLocalityConfig :
    option TableDescriptor_LocalityConfig -> string + error;
  LocalityConfigRegionalByRow : Name -> TableDescriptor_LocalityConfig;
  ValidateTableLocalityConfig : Mutable -> option error;
  FindColumnByName : Mutable -> Name -> ColumnDescriptor + error;
  IsMultiRegion : Immutable -> bool;
  MultiRegionEnumID : Immutable -> ID + error;
  TypeIDToOID : ID -> Z;
  checkSchemaChangeEnabled : string -> option error;
  ResolveMutableTableDescriptorEx : string -> bool -> option Mutable + error;
  CheckPrivilege : Mutable -> option error;
  GetImmutableDatabaseByID : ID -> Immutable + error;
  writeSchemaChange : Mutable -> MutationID -> Mutable * option error;
  applyZoneConfigForMultiRegionTable : string -> Mutable -> option error;
  AlterPrimaryKey :
    Mutable -> AlterTableAlterPrimaryKey -> PrimaryKeySwap_LocalityConfigSwap
    -> Mutable * option error;
  logEvent : ID -> string -> option error;
  RegionalByRowRegionNotSpecifiedName : Name;
  RegionEnum : string;
  InvalidMutationID : MutationID
}.

(** The calls made to the planner's services, with their arguments. *)
Inductive Call : Set :=
| CallValidateTableLocalityConfig (desc : Mutable)
| CallWriteSchemaChange (desc : Mutable) (mutationID : MutationID)
| CallApplyZoneConfig (regionConfig : string) (desc : Mutable)
| CallAlterPrimaryKey (desc : Mutable) (alter : AlterTableAlterPrimaryKey)
    (swap : PrimaryKeySwap_LocalityConfigSwap)
| CallLogEvent (id : ID) (tableName : string).

(** The mutable part of a node: the descriptor behind [n.tableDesc], and the
    calls made so far (oldest first). *)
Record NodeState : Type := mkNodeState {
  tableDesc : Mutable;
  calls : list Call
}.

(** The immutable part of [alterTableSetLocalityNode]. *)
Record alterTableSetLocalityNode : Set := mkNode {
  n : AlterTableLocality;
  dbDesc : Immutable
}.

Definition M := state NodeState.

(** Reading through, changing behind, the pointer [n.tableDesc]; adding a
    call to the record. *)
Definition getDesc : M Mutable :=
  s <- get ;; ret (tableDesc s).

Definition modifyDesc (f : Mutable -> Mutable) : M unit :=
  s <- get ;; put (mkNodeState (f (tableDesc s)) (calls s)).

Definition record (c : Call) : M unit :=
  s <- get ;; put (mkNodeState (tableDesc s) (calls s ++ [c])).

(** [n.tableDesc.ValidateTableLocalityConfig(ctx, dg)]. *)
Definition do_ValidateTableLocalityConfig (c : Collaborators)
    : M (option error) :=
  desc <- getDesc ;;
  record (CallValidateTableLocalityConfig desc) ;;
  ret (ValidateTableLocalityConfig c desc).

(** [params.p.writeSchemaChange(ctx, n.tableDesc, mutationID, ...)]: the
    callee receives the descriptor pointer and may change the descriptor.
    The job description, printed from the statement, is left out. *)
Definition do_writeSchemaChange (c : Collaborators) (mutationID : MutationID)
    : M (option error) :=
  desc <- getDesc ;;
  record (CallWriteSchemaChange desc mutationID) ;;
  modifyDesc (fun _ => fst (writeSchemaChange c desc mutationID)) ;;
  ret (snd (writeSchemaChange c desc mutationID)).

(** [applyZoneConfigForMultiRegionTable(..., *dbDesc.RegionConfig,
    n.tableDesc, ...)]. *)
Definition do_applyZoneConfigForMultiRegionTable (c : Collaborators)
    (regionConfig : string) : M (option error) :=
  desc <- getDesc ;;
  record (CallApplyZoneConfig regionConfig desc) ;;
  ret (applyZoneConfigForMultiRegionTable c regionConfig desc).

(** [params.p.AlterPrimaryKey(ctx, n.tableDesc, alter, swap)]: it changes
    the descriptor behind the pointer. *)
Definition do_AlterPrimaryKey (c : Collaborators)
    (alter : AlterTableAlterPrimaryKey)
    (swap : PrimaryKeySwap_LocalityConfigSwap) : M (option error) :=
  desc <- getDesc ;;
  record (CallAlterPrimaryKey desc alter swap) ;;
  modifyDesc (fun _ => fst (AlterPrimaryKey c desc alter swap)) ;;
  ret (snd (AlterPrimaryKey c desc alter swap)).

(** [params.p.logEvent(ctx, n.tableDesc.ID, AlterTable{TableName})]. *)
Definition do_logEvent (c : Collaborators) (tableName : string)
    : M (option error) :=
  desc <- getDesc ;;
  record (CallLogEvent (Mutable_ID desc) tableName) ;;
  ret (logEvent c (Mutable_ID desc) tableName).

(** [return err] for a Go [error] value. *)
Definition returned (e : option error) : result :=
  match e with
  | None => Nil
  | Some err => Err err
  end.

(** [if err := m; err != nil { return err }], then [k]. *)
Definition orReturn (m : M (option error)) (k : M result) : M result :=
  e <- m ;;
  match e with
  | Some err => ret (Err err)
  | None => k
  end.

(** The same for a callee of this file, which may also panic. *)
Definition andThen (m : M result) (k : M result) : M result :=
  r <- m ;;
  match r with
  | Nil => k
  | _ => ret r
  end.

(** [validateAndWriteNewTableLocalityAndZoneConfig]. *)
Definition validateAndWriteNewTableLocalityAndZoneConfig
    (c : Collaborators) (dbDesc : Immutable) : M result :=
  orReturn (do_ValidateTableLocalityConfig c)
    (orReturn (do_writeSchemaChange c (InvalidMutationID c))
       (match RegionConfig dbDesc with
        | None => ret Panic
        | Some regionConfig =>
            orReturn (do_applyZoneConfigForMultiRegionTable c regionConfig)
                     (ret Nil)
        end)).

(** [alterTableLocalityGlobalToRegionalByTable]. *)
Definition alterTableLocalityGlobalToRegionalByTable
    (c : Collaborators) (node : alterTableSetLocalityNode) : M result :=
  desc <- getDesc ;;
  if negb (IsLocalityGlobal c desc) then
    match FormatTableLocalityConfig c (LocalityConfig desc) with
    | inr err => ret (Err err)
    | inl f =>
        ret (Err (AssertionFailedf
                    "invalid call %q on incorrect table locality %s"
                    [ArgString "alter table locality GLOBAL to REGIONAL BY TABLE";
                     ArgString f]))
    end
  else
    match Locality_of (n node) with
    | None => ret Panic
    | Some locality =>
        modifyDesc (SetTableLocalityRegionalByTable c (TableRegion locality)) ;;
        validateAndWriteNewTableLocalityAndZoneConfig c (dbDesc node)
    end.

(** [alterTableLocalityRegionalByTableToGlobal]. *)
Definition alterTableLocalityRegionalByTableToGlobal
    (c : Collaborators) (node : alterTableSetLocalityNode) : M result :=
  let operation := "alter table locality REGIONAL BY TABLE to GLOBAL"%string in
  desc <- getDesc ;;
  if negb (IsLocalityRegionalByTable c desc) then
    ret (Err (AssertionFailedf
                "invalid call %q on incorrect table locality. %v"
                [ArgString operation; ArgLocalityConfig (LocalityConfig desc)]))
  else
    modifyDesc (SetTableLocalityGlobal c) ;;
    validateAndWriteNewTableLocalityAndZoneConfig c (dbDesc node).

(** [alterTableLocalityRegionalByTableToRegionalByTable]. *)
Definition alterTableLocalityRegionalByTableToRegionalByTable
    (c : Collaborators) (node : alterTableSetLocalityNode) : M result :=
  let operation :=
    "alter table locality REGIONAL BY TABLE to REGIONAL BY TABLE"%string in
  desc <- getDesc ;;
  if negb (IsLocalityRegionalByTable c desc) then
    ret (Err (AssertionFailedf
                "invalid call %q on incorrect table locality. %v"
                [ArgString operation; ArgLocalityConfig (LocalityConfig desc)]))
  else
    match Locality_of (n node) with
    | None => ret Panic
    | Some locality =>
        modifyDesc (SetTableLocalityRegionalByTable c (TableRegion locality)) ;;
        validateAndWriteNewTableLocalityAndZoneConfig c (dbDesc node)
    end.

(** What the loop over the primary-key columns produces. *)
Inductive colsResult : Set :=
| ColsOk (cols : list IndexElem)
| ColsErr (e : error)
| ColsPanic.

(** The loop of [alterTableLocalityNonRegionalByRowToRegionalByRow] that
    builds [cols]: one element per name of [ColumnNames], with the direction
    found at the same index of [ColumnDirections] (a missing index panics, an
    unknown direction is an assertion failure). *)
Fixpoint primaryKeyColumns (names : list string)
    (dirs : list IndexDescriptor_Direction) : colsResult :=
  match names with
  | [] => ColsOk []
  | col :: names' =>
      match dirs with
      | [] => ColsPanic
      | dir :: dirs' =>
          let rest (d : Direction) :=
            match primaryKeyColumns names' dirs' with
            | ColsOk cols => ColsOk (mkIndexElem col d :: cols)
            | other => other
            end in
          match dir with
          | IndexDescriptor_ASC => rest Ascending
          | IndexDescriptor_DESC => rest Descending
          | _ => ColsErr (AssertionFailedf "unknown direction: %v"
                                           [ArgDirection dir])
          end
      end
  end.

(** [alterTableLocalityNonRegionalByRowToRegionalByRow]. *)
Definition alterTableLocalityNonRegionalByRowToRegionalByRow
    (c : Collaborators) (node : alterTableSetLocalityNode)
    (existingLocality : TableDescriptor_LocalityConfig)
    (newLocality : tree.Locality) : M result :=
  if String.eqb (RegionalByRowColumn newLocality)
                (RegionalByRowRegionNotSpecifiedName c)
  then ret (Err (unimplemented_NewWithIssue 59632 "implementation pending"))
  else
    desc <- getDesc ;;
    match FindColumnByName c desc (RegionalByRowColumn newLocality) with
    | inr err => ret (Err err)
    | inl partCol =>
      match MultiRegionEnumID c (dbDesc node) with
      | inr err => ret (Err err)
      | inl enumTypeID =>
        if negb (Type_Oid partCol =? TypeIDToOID c enumTypeID)
        then ret (Err (pgerror_Newf InvalidTableDefinition
                  "cannot use column %s for REGIONAL BY ROW as it does not have the %s type"
                  [ArgString (RegionalByRowColumn newLocality);
                   ArgString (RegionEnum c)]))
        else
          match primaryKeyColumns (ColumnNames (PrimaryIndex desc))
                                  (ColumnDirections (PrimaryIndex desc)) with
          | ColsPanic => ret Panic
          | ColsErr e => ret (Err e)
          | ColsOk cols =>
            orReturn
              (do_AlterPrimaryKey c
                 (mkAlterTableAlterPrimaryKey
                    (Index_Name (PrimaryIndex desc)) cols)
                 (mkLocalityConfigSwap existingLocality
                    (LocalityConfigRegionalByRow c
                       (RegionalByRowColumn newLocality))))
              (desc' <- getDesc ;;
               e <- do_writeSchemaChange c
                      (ClusterVersion_NextMutationID desc') ;;
               ret (returned e))
          end
      end
    end.

(** The last statement of [startExec]: the event log entry. *)
Definition logAlterTable (c : Collaborators) (node : alterTableSetLocalityNode)
    : M result :=
  e <- do_logEvent c (Name_of (n node)) ;;
  ret (returned e).

(** [startExec]. *)
Definition startExec (c : Collaborators) (node : alterTableSetLocalityNode)
    : M result :=
  let newLocality := Locality_of (n node) in
  desc <- getDesc ;;
  match LocalityConfig desc with
  | None => ret Panic
  | Some existingLocality =>
    let unknown (l : tree.Locality) :=
      ret (Err (AssertionFailedf "unknown table locality: %v"
                                 [ArgLocality l])) in
    match Locality existingLocality with
    | TableDescriptor_LocalityConfig_Global_ =>
      match newLocality with
      | None => ret Panic
      | Some l =>
        match LocalityLevel_of l with
        | LocalityLevelGlobal => ret Nil
        | LocalityLevelRow =>
            andThen (alterTableLocalityNonRegionalByRowToRegionalByRow
                       c node existingLocality l)
                    (logAlterTable c node)
        | LocalityLevelTable =>
            andThen (alterTableLocalityGlobalToRegionalByTable c node)
                    (logAlterTable c node)
        | LocalityLevelUnknown => unknown l
        end
      end
    | TableDescriptor_LocalityConfig_RegionalByTable_ =>
      match newLocality with
      | None => ret Panic
      | Some l =>
        match LocalityLevel_of l with
        | LocalityLevelGlobal =>
            andThen (alterTableLocalityRegionalByTableToGlobal c node)
                    (logAlterTable c node)
        | LocalityLevelRow =>
            andThen (alterTableLocalityNonRegionalByRowToRegionalByRow
                       c node existingLocality l)
                    (logAlterTable c node)
        | LocalityLevelTable =>
            andThen (alterTableLocalityRegionalByTableToRegionalByTable c node)
                    (logAlterTable c node)
        | LocalityLevelUnknown => unknown l
        end
      end
    | TableDescriptor_LocalityConfig_RegionalByRow_ =>
      match newLocality with
      | None => ret Panic
      | Some l =>
        match LocalityLevel_of l with
        | LocalityLevelGlobal =>
            ret (Err (unimplemented_NewWithIssue 59632 "implementation pending"))
        | LocalityLevelRow =>
            ret (Err (unimplemented_New
                        "alter table locality from REGIONAL BY ROW"
                        "implementation pending"))
        | LocalityLevelTable =>
            ret (Err (unimplemented_NewWithIssue 59632 "implementation pending"))
        | LocalityLevelUnknown => unknown l
        end
      end
    | TableDescriptor_LocalityConfig_unset =>
        ret (Err (AssertionFailedf "unknown table locality: %v"
                    [ArgLocalityConfig (Some existingLocality)]))
    end
  end.

(** What the planner hands back: the zero node, or the node for
    [startExec] with the descriptor it will change. *)
Inductive planNode : Set :=
| zeroNode
| alterTableSetLocality (node : alterTableSetLocalityNode) (desc : Mutable).

(** [(p *planner) AlterTableLocality]: the plan node, or the error. *)
Definition AlterTableLocality (c : Collaborators) (n : tree.AlterTableLocality)
    : planNode + error :=
  match checkSchemaChangeEnabled c "ALTER TABLE" with
  | Some err => inr err
  | None =>
    match ResolveMutableTableDescriptorEx c (Name_of n) (negb (IfExists n)) with
    | inr err => inr err
    | inl None => inl zeroNode
    | inl (Some tableDesc) =>
      match CheckPrivilege c tableDesc with
      | Some _ =>
          inr (pgerror_Newf InsufficientPrivilege
                 "must be owner of table %s or have CREATE privilege on table %s"
                 [ArgString (GetName tableDesc); ArgString (GetName tableDesc)])
      | None =>
        match GetImmutableDatabaseByID c (GetParentID tableDesc) with
        | inr err => inr err
        | inl dbDesc =>
          if negb (IsMultiRegion c dbDesc)
          then inr (pgerror_Newf InvalidTableDefinition
                      "cannot alter a table's LOCALITY if its database is not multi-region enabled"
                      [])
          else inl (alterTableSetLocality (mkNode n dbDesc) tableDesc)
        end
      end
    end
  end.

(** The transition to REGIONAL BY ROW has passed its checks on the
    descriptor [d] and is about to call [AlterPrimaryKey] with [alter] and
    [swap]. *)
Definition RowRequest (c : Collaborators) (node : alterTableSetLocalityNode)
    (d : Mutable) (alter : AlterTableAlterPrimaryKey)
    (swap : PrimaryKeySwap_LocalityConfigSwap) : Prop :=
  exists existingLocality newLocality partCol enumTypeID cols,
    LocalityConfig d = Some existingLocality
    /\ Locality_of (n node) = Some newLocality
    /\ LocalityLevel_of newLocality = LocalityLevelRow
    /\ RegionalByRowColumn newLocality <> RegionalByRowRegionNotSpecifiedName c
    /\ FindColumnByName c d (RegionalByRowColumn newLocality) = inl partCol
    /\ MultiRegionEnumID c (dbDesc node) = inl enumTypeID
    /\ Type_Oid partCol = TypeIDToOID c enumTypeID
    /\ primaryKeyColumns (ColumnNames (PrimaryIndex d))
                         (ColumnDirections (PrimaryIndex d)) = ColsOk cols
    /\ alter = mkAlterTableAlterPrimaryKey (Index_Name (PrimaryIndex d)) cols
    /\ swap = mkLocalityConfigSwap existingLocality
                (LocalityConfigRegionalByRow c
                   (RegionalByRowColumn newLocality)).

(** What makes [startExec] panic before any call: a nil [LocalityConfig], a
    nil [Locality] in the statement, or fewer primary-key directions than
    primary-key column names. *)
Definition missingData (node : alterTableSetLocalityNode) (d : Mutable)
    : Prop :=
  LocalityConfig d = None
  \/ Locality_of (n node) = None
  \/ primaryKeyColumns (ColumnNames (PrimaryIndex d))
                       (ColumnDirections (PrimaryIndex d)) = ColsPanic.

(** The runs of [startExec] from the descriptor [d]: the calls made, in
    order, the result and the descriptor left behind. *)
Inductive Protocol (c : Collaborators) (node : alterTableSetLocalityNode)
    (d : Mutable) : list Call -> result -> Mutable -> Prop :=
| NothingToDo existingLocality newLocality :
    LocalityConfig d = Some existingLocality ->
    Locality existingLocality = TableDescriptor_LocalityConfig_Global_ ->
    Locality_of (n node) = Some newLocality ->
    LocalityLevel_of newLocality = LocalityLevelGlobal ->
    Protocol c node d [] Nil d
| Refused res :
    res <> Nil ->
    (res = Panic -> missingData node d) ->
    Protocol c node d [] res d
| Invalid d1 err :
    ValidateTableLocalityConfig c d1 = Some err ->
    Protocol c node d [CallValidateTableLocalityConfig d1] (Err err) d1
| NotWritten d1 res :
    ValidateTableLocalityConfig c d1 = None ->
    (exists err, snd (writeSchemaChange c d1 (InvalidMutationID c)) = Some err
                 /\ res = Err err)
    \/ (snd (writeSchemaChange c d1 (InvalidMutationID c)) = None
        /\ RegionConfig (dbDesc node) = None /\ res = Panic) ->
    Protocol c node d
      [CallValidateTableLocalityConfig d1;
       CallWriteSchemaChange d1 (InvalidMutationID c)]
      res (fst (writeSchemaChange c d1 (InvalidMutationID c)))
| ZoneConfigFailed d1 rc err :
    ValidateTableLocalityConfig c d1 = None ->
    snd (writeSchemaChange c d1 (InvalidMutationID c)) = None ->
    RegionConfig (dbDesc node) = Some rc ->
    applyZoneConfigForMultiRegionTable c rc
      (fst (writeSchemaChange c d1 (InvalidMutationID c))) = Some err ->
    Protocol c node d
      [CallValidateTableLocalityConfig d1;
       CallWriteSchemaChange d1 (InvalidMutationID c);
       CallApplyZoneConfig rc
         (fst (writeSchemaChange c d1 (InvalidMutationID c)))]
      (Err err) (fst (writeSchemaChange c d1 (InvalidMutationID c)))
| TableLogged d1 rc :
    ValidateTableLocalityConfig c d1 = None ->
    snd (writeSchemaChange c d1 (InvalidMutationID c)) = None ->
    RegionConfig (dbDesc node) = Some rc ->
    applyZoneConfigForMultiRegionTable c rc
      (fst (writeSchemaChange c d1 (InvalidMutationID c))) = None ->
    let d2 := fst (writeSchemaChange c d1 (InvalidMutationID c)) in
    Protocol c node d
      [CallValidateTableLocalityConfig d1;
       CallWriteSchemaChange d1 (InvalidMutationID c);
       CallApplyZoneConfig rc d2;
       CallLogEvent (Mutable_ID d2) (Name_of (n node))]
      (returned (logEvent c (Mutable_ID d2) (Name_of (n node)))) d2
| PrimaryKeyNotAltered alter swap err :
    RowRequest c node d alter swap ->
    snd (AlterPrimaryKey c d alter swap) = Some err ->
    Protocol c node d [CallAlterPrimaryKey d alter swap] (Err err)
      (fst (AlterPrimaryKey c d alter swap))
| RowNotWritten alter swap err :
    RowRequest c node d alter swap ->
    snd (AlterPrimaryKey c d alter swap) = None ->
    let d1 := fst (AlterPrimaryKey c d alter swap) in
    let m := ClusterVersion_NextMutationID d1 in
    snd (writeSchemaChange c d1 m) = Some err ->
    Protocol c node d
      [CallAlterPrimaryKey d alter swap; CallWriteSchemaChange d1 m]
      (Err err) (fst (writeSchemaChange c d1 m))
| RowLogged alter swap :
    RowRequest c node d alter swap ->
    snd (AlterPrimaryKey c d alter swap) = None ->
    let d1 := fst (AlterPrimaryKey c d alter swap) in
    let m := ClusterVersion_NextMutationID d1 in
    snd (writeSchemaChange c d1 m) = None ->
    let d2 := fst (writeSchemaChange c d1 m) in
    Protocol c node d
      [CallAlterPrimaryKey d alter swap; CallWriteSchemaChange d1 m;
       CallLogEvent (Mutable_ID d2) (Name_of (n node))]
      (returned (logEvent c (Mutable_ID d2) (Name_of (n node)))) d2.

End sql.

(** A table, a database and collaborators for which every step succeeds. *)
Module sql_scenarios.
Import tree descpb sql.
Local Open Scope string_scope.

Definition localityIs (k : isTableDescriptor_LocalityConfig_Locality)
    (d : Mutable) : bool :=
  match LocalityConfig d with
  | Some cfg =>
      match Locality cfg, k with
      | TableDescriptor_LocalityConfig_Global_,
        TableDescriptor_LocalityConfig_Global_ => true
      | TableDescriptor_LocalityConfig_RegionalByTable_,
        TableDescriptor_LocalityConfig_RegionalByTable_ => true
      | TableDescriptor_LocalityConfig_RegionalByRow_,
        TableDescriptor_LocalityConfig_RegionalByRow_ => true
      | _, _ => false
      end
  | None => false
  end.

Definition setLocality (cfg : TableDescriptor_LocalityConfig) (d : Mutable)
    : Mutable :=
  mkMutable (Mutable_ID d) (GetName d) (GetParentID d) (Some cfg)
            (PrimaryIndex d) (ClusterVersion_NextMutationID d).

(** The primary key (id ASC, ts DESC) of table 52, "t", in database 50. *)
Definition table (cfg : option TableDescriptor_LocalityConfig) : Mutable :=
  mkMutable 52 "t" 50 cfg
    (mkIndexDescriptor "primary" ["id"; "ts"]
                       [IndexDescriptor_ASC; IndexDescriptor_DESC]) 3.

Definition globalTable : Mutable :=
  table (Some (mkLocalityConfig TableDescriptor_LocalityConfig_Global_ "")).

Definition regionalByRowTable : Mutable :=
  table (Some (mkLocalityConfig TableDescriptor_LocalityConfig_RegionalByRow_ "")).

Definition db : Immutable := mkImmutable 50 (Some "us-east1,us-west1").

(** Column "region" has the type of the region enum (id 60, oid 100060);
    validation accepts every descriptor unless [valid] is false. *)
Definition collaborators (valid : bool) : Collaborators :=
  mkCollaborators
    (localityIs TableDescriptor_LocalityConfig_Global_)
    (localityIs TableDescriptor_LocalityConfig_RegionalByTable_)
    (fun region =>
       setLocality
         (mkLocalityConfig TableDescriptor_LocalityConfig_RegionalByTable_ region))
    (setLocality (mkLocalityConfig TableDescriptor_LocalityConfig_Global_ ""))
    (fun cfg => inl "GLOBAL")
    (fun col => mkLocalityConfig TableDescriptor_LocalityConfig_RegionalByRow_ col)
    (fun _ => if valid then None else Some (OtherError "invalid locality"))
    (fun _ col => if String.eqb col "region"
                  then inl (mkColumnDescriptor col 100060)
                  else inr (OtherError "column does not exist"))
    (fun database => match RegionConfig database with
                     | Some _ => true
                     | None => false
                     end)
    (fun _ => inl 60)
    (fun id => Z.add id 100000)
    (fun _ => None)
    (fun name required =>
       if String.eqb name "t" then inl (Some globalTable)
       else if required then inr (OtherError "relation does not exist")
       else inl None)
    (fun _ => None)
    (fun id => if Z.eqb id 50 then inl db
               else inr (OtherError "database does not exist"))
    (fun d _ => (d, None))
    (fun _ _ => None)
    (fun d _ swap => (setLocality (NewLocalityConfig swap) d, None))
    (fun _ _ => None)
    ""
    "crdb_internal_region"
    0.

Definition statement (level : LocalityLevel) : tree.AlterTableLocality :=
  mkAlterTableLocality "t" false (Some (mkLocality level "us-east1" "region")).

Definition node (level : LocalityLevel) : alterTableSetLocalityNode :=
  mkNode (statement level) db.

Definition start (d : Mutable) : NodeState := mkNodeState d [].

End sql_scenarios.

(* ===================================================================== *)
(** ** The order on timestamps *)
(* ===================================================================== *)

Module hlc_facts.
Import hlc.

Ltac ts_cases :=
  repeat match goal with
         | t : Timestamp |- _ => destruct t
         end;
  unfold Forward, LessEq, Less, eqb, zero, nonneg in *;
  cbn [WallTime Logical] in *;
  repeat match goal with
         | |- context [?a <? ?b] => destruct (Z.ltb_spec a b)
         | |- context [?a <=? ?b] => destruct (Z.leb_spec a b)
         | |- context [?a =? ?b] => destruct (Z.eqb_spec a b)
         | H : context [?a <? ?b] |- _ => destruct (Z.ltb_spec a b)
         | H : context [?a <=? ?b] |- _ => destruct (Z.leb_spec a b)
         | H : context [?a =? ?b] |- _ => destruct (Z.eqb_spec a b)
         end;
  cbn [WallTime Logical orb andb negb] in *; subst;
  try discriminate; try reflexivity; try (f_equal; lia); try lia.

Lemma LessEq_refl t : LessEq t t = true.
Proof. ts_cases. Qed.

Lemma LessEq_trans a b c :
  LessEq a b = true -> LessEq b c = true -> LessEq a c = true.
Proof. intros H1 H2. ts_cases. Qed.

Lemma LessEq_antisym a b :
  LessEq a b = true -> LessEq b a = true -> a = b.
Proof. intros H1 H2. ts_cases. Qed.

(** The order is total: [t <= s] fails exactly when [s < t]. *)
Lemma LessEq_negb_Less t s : LessEq t s = negb (Less s t).
Proof. ts_cases. Qed.

Lemma eqb_eq t s : eqb t s = true <-> t = s.
Proof.
  split; intros H.
  - ts_cases.
  - subst. ts_cases.
Qed.

Lemma Forward_upper_l t s : LessEq t (Forward t s) = true.
Proof. ts_cases. Qed.

Lemma Forward_upper_r t s : LessEq s (Forward t s) = true.
Proof. ts_cases. Qed.

Lemma Forward_cases t s : Forward t s = t \/ Forward t s = s.
Proof. unfold Forward. destruct (Less t s); auto. Qed.

(** [Forward] is the least upper bound: it is the maximum. *)
Lemma LessEq_Forward x t s :
  LessEq x (Forward t s) = LessEq x t || LessEq x s.
Proof. ts_cases. Qed.

Lemma Forward_LessEq t s x :
  LessEq (Forward t s) x = LessEq t x && LessEq s x.
Proof. ts_cases. Qed.

(** Against the zero timestamp, a clock timestamp is below or equal only
    when it is the zero timestamp itself. *)
Lemma LessEq_zero_nonneg t :
  nonneg t -> (LessEq t zero = true <-> t = zero).
Proof.
  intros [H1 H2]. split; intros H.
  - ts_cases.
  - subst. reflexivity.
Qed.

(** [s <= t] fails when [t < s]. *)
Lemma not_LessEq_of_Less a b : Less a b = true -> LessEq b a = false.
Proof. intros H. rewrite LessEq_negb_Less, H. reflexivity. Qed.

End hlc_facts.

(* ===================================================================== *)
(** ** The paths through [canServeFollowerRead] *)
(* ===================================================================== *)

Module kvserver_facts.
Import roachpb kvserver followerread.

Lemma LeaseType_eqb_eq a b : LeaseType_eqb a b = true <-> a = b.
Proof. destruct a, b; simpl; split; congruence. Qed.

Lemma canServeType_spec typ :
  canServeType typ = true
  <-> typ = VOTER_FULL \/ typ = VOTER_INCOMING \/ typ = NON_VOTER.
Proof.
  destruct typ; simpl; split; intros H; auto;
    try discriminate; repeat (destruct H as [H | H]); discriminate.
Qed.

Section Paths.
Variable r : Replica.
Variable w : Effects.

Lemma maxClosed_expiration e :
  Expiration (mu_state_Lease r) = Some e ->
  runState (maxClosed r) w = ((hlc.zero, false), w).
Proof. intros H. unfold maxClosed. rewrite H. reflexivity. Qed.

Lemma maxClosed_epoch :
  Expiration (mu_state_Lease r) = None ->
  runState (maxClosed r) w =
  ((hlc.Forward (hlc.Forward (providerClosed r) (Start (mu_state_Lease r)))
                (mu_initialMaxClosed r), true), queried r w).
Proof. intros H. unfold maxClosed. rewrite H. reflexivity. Qed.

(** [maxClosed] touches neither the counter nor the clients. *)
Lemma maxClosed_frame :
  FollowerReadsCount (execState (maxClosed r) w) = FollowerReadsCount w
  /\ ClientRequests (execState (maxClosed r) w) = ClientRequests w.
Proof.
  unfold execState.
  destruct (Expiration (mu_state_Lease r)) as [e|] eqn:E.
  - rewrite (maxClosed_expiration e E). auto.
  - rewrite (maxClosed_epoch E). auto.
Qed.

Variable ba : BatchRequest.
Variable pErr : Error.

Lemma batchCanBeFollowerRead_true :
  batchCanBeFollowerRead r ba = true
  <-> nonLockingRead ba /\ FollowerReadsEnabled r = true.
Proof.
  unfold batchCanBeFollowerRead, nonLockingRead.
  rewrite !andb_true_iff, negb_true_iff.
  split.
  - intros [[[H1 H2] H3] H4]. repeat split; auto.
    intros txn Ht. rewrite Ht in H3. now apply negb_true_iff.
  - intros [(H1 & H2 & H3) H4]. repeat split; auto.
    destruct (Txn ba) as [txn|]; auto.
    rewrite (H3 txn eq_refl). reflexivity.
Qed.

Lemma eligible_true :
  eligible r ba pErr = true
  <-> exists lErr leaseHolder,
        asNotLeaseHolderError pErr = Some lErr
        /\ LeaseHolder lErr = Some leaseHolder
        /\ Lease_Type (Lease_of lErr) = LeaseEpoch
        /\ batchCanBeFollowerRead r ba = true.
Proof.
  unfold eligible. split.
  - destruct (asNotLeaseHolderError pErr) as [lErr|]; [|discriminate].
    destruct (LeaseHolder lErr) as [lh|] eqn:E; [|discriminate].
    rewrite andb_true_iff, LeaseType_eqb_eq. intros [H1 H2].
    exists lErr, lh. auto.
  - intros (lErr & lh & H1 & H2 & H3 & H4).
    rewrite H1, H2, H3, H4. reflexivity.
Qed.

(** Lines 50-53: an ineligible request gets its error back; nothing is
    touched. *)
Lemma run_ineligible :
  eligible r ba pErr = false ->
  runState (canServeFollowerRead r ba pErr) w = (Some pErr, w).
Proof.
  unfold eligible, canServeFollowerRead.
  destruct (asNotLeaseHolderError pErr) as [lErr|]; [|reflexivity].
  destruct (LeaseHolder lErr) as [lh|]; [|reflexivity].
  intros ->. reflexivity.
Qed.

(** Lines 55-58: the descriptor cannot be resolved. *)
Lemma run_descriptor_failure err :
  eligible r ba pErr = true ->
  GetReplicaDescriptor r = inr err ->
  runState (canServeFollowerRead r ba pErr) w = (Some (NewError err), w).
Proof.
  unfold eligible, canServeFollowerRead.
  destruct (asNotLeaseHolderError pErr) as [lErr|]; [|discriminate].
  destruct (LeaseHolder lErr) as [lh|]; [|discriminate].
  intros -> ->. reflexivity.
Qed.

(** Lines 60-65: the replica type cannot serve follower reads. *)
Lemma run_wrong_type repDesc :
  eligible r ba pErr = true ->
  GetReplicaDescriptor r = inl repDesc ->
  canServeType (GetType repDesc) = false ->
  runState (canServeFollowerRead r ba pErr) w = (Some pErr, w).
Proof.
  unfold eligible, canServeFollowerRead.
  destruct (asNotLeaseHolderError pErr) as [lErr|]; [|discriminate].
  destruct (LeaseHolder lErr) as [lh|]; [|discriminate].
  intros -> -> ->. reflexivity.
Qed.

(** Lines 99-105: the read is served. *)
Lemma run_served :
  reachesTimestampCheck r ba pErr ->
  hlc.LessEq (effectiveTimestamp ba) (rangeMaxClosed r w) = true ->
  runState (canServeFollowerRead r ba pErr) w =
  (None, mkEffects (FollowerReadsCount w + 1) (ClientRequests w)
                   (ProviderQueries (execState (maxClosed r) w))).
Proof.
  intros [He (d & Hd & Ht)].
  unfold rangeMaxClosed, evalState, execState.
  destruct maxClosed_frame as [Hc Hq]. revert Hc Hq. unfold execState.
  unfold eligible in He. unfold canServeFollowerRead.
  destruct (asNotLeaseHolderError pErr) as [lErr|]; [|discriminate].
  destruct (LeaseHolder lErr) as [lh|]; [|discriminate].
  rewrite He, Hd, Ht. cbn.
  destruct (runState (maxClosed r) w) as [mc w'].
  cbn. intros Hc Hq ->. cbn. rewrite Hc, Hq. reflexivity.
Qed.

(** Lines 75-97: the closed timestamp is too low; a refresh is
    requested. *)
Lemma run_too_low lErr leaseHolder :
  asNotLeaseHolderError pErr = Some lErr ->
  LeaseHolder lErr = Some leaseHolder ->
  reachesTimestampCheck r ba pErr ->
  hlc.LessEq (effectiveTimestamp ba) (rangeMaxClosed r w) = false ->
  runState (canServeFollowerRead r ba pErr) w =
  (Some pErr,
   mkEffects (FollowerReadsCount w)
             (ClientRequests w ++ [(NodeID_of leaseHolder, RangeID_of r)])
             (ProviderQueries (execState (maxClosed r) w))).
Proof.
  intros Hl Hh [He (d & Hd & Ht)].
  unfold rangeMaxClosed, evalState, execState.
  destruct maxClosed_frame as [Hc Hq]. revert Hc Hq. unfold execState.
  unfold eligible in He. unfold canServeFollowerRead.
  rewrite Hl in *. rewrite Hh in *.
  rewrite He, Hd, Ht. cbn.
  destruct (runState (maxClosed r) w) as [mc w'].
  cbn. intros Hc Hq ->. cbn. rewrite Hc, Hq. reflexivity.
Qed.

(** The decision at the timestamp check, as a value. *)
Lemma served_iff :
  reachesTimestampCheck r ba pErr ->
  (evalState (canServeFollowerRead r ba pErr) w = None
   <-> hlc.LessEq (effectiveTimestamp ba) (rangeMaxClosed r w) = true).
Proof.
  intros Hr.
  destruct (hlc.LessEq (effectiveTimestamp ba) (rangeMaxClosed r w)) eqn:E.
  - unfold evalState. rewrite (run_served Hr E). tauto.
  - destruct (proj1 eligible_true (proj1 Hr)) as (lErr & lh & H1 & H2 & _).
    unfold evalState. rewrite (run_too_low lErr lh H1 H2 Hr E).
    cbn. split; discriminate.
Qed.

(** [nil] is returned only past the timestamp check. *)
Lemma served_inv :
  evalState (canServeFollowerRead r ba pErr) w = None ->
  reachesTimestampCheck r ba pErr
  /\ hlc.LessEq (effectiveTimestamp ba) (rangeMaxClosed r w) = true.
Proof.
  intros H.
  assert (Hr : reachesTimestampCheck r ba pErr).
  { unfold reachesTimestampCheck, servingReplica.
    destruct (eligible r ba pErr) eqn:He.
    - split; [reflexivity|].
      destruct (GetReplicaDescriptor r) as [d|err] eqn:Hd.
      + exists d. split; [reflexivity|].
        destruct (canServeType (GetType d)) eqn:Ht; [reflexivity|].
        unfold evalState in H.
        rewrite (run_wrong_type d He Hd Ht) in H. discriminate.
      + unfold evalState in H.
        rewrite (run_descriptor_failure err He Hd) in H. discriminate.
    - unfold evalState in H. rewrite (run_ineligible He) in H.
      discriminate. }
  split; [exact Hr|]. now apply served_iff.
Qed.

End Paths.

End kvserver_facts.

(* ===================================================================== *)
(** ** Properties of the follower-read decision *)
(* ===================================================================== *)

Import roachpb kvserver followerread scenarios.
Import hlc_facts kvserver_facts.

Lemma gateFails_ineligible r ba pErr :
  gateFails r ba pErr -> eligible r ba pErr = false.
Proof.
  intros H. destruct (eligible r ba pErr) eqn:He; [|reflexivity].
  apply eligible_true in He as (lErr & lh & H1 & H2 & H3 & H4).
  apply batchCanBeFollowerRead_true in H4 as [(Hl & Ha & Ht) Hf].
  destruct H as [H | [(l & Hl1 & Hl2) | [H | [H | [(txn & Hx & Hy) | H]]]]];
    try congruence.
  rewrite (Ht txn Hx) in Hy. discriminate.
Qed.

Lemma expiration_lease_ineligible r ba pErr lErr :
  asNotLeaseHolderError pErr = Some lErr ->
  Lease_Type (Lease_of lErr) = LeaseExpiration ->
  eligible r ba pErr = false.
Proof.
  intros H1 H2. apply gateFails_ineligible. right; left.
  exists lErr. split; [exact H1 | congruence].
Qed.

(** C1, as amended: [canServeFollowerRead] returns [nil] exactly when the
    prior error carries a [NotLeaseHolderError] that names a lease holder and
    whose lease is epoch-based, the batch is non-locking and
    all-transactional, its transaction (if any) is non-locking, follower
    reads are enabled, the local replica resolves to a VOTER_FULL,
    VOTER_INCOMING or NON_VOTER descriptor, and the effective timestamp is at
    most the range's maximum closed timestamp; and when it returns [nil] the
    follower-reads counter has been incremented by one. *)
Theorem eligibility_equivalence r ba pErr w :
  (evalState (canServeFollowerRead r ba pErr) w = None
   <-> eligibleForFollowerRead r ba pErr w)
  /\ (evalState (canServeFollowerRead r ba pErr) w = None ->
      FollowerReadsCount (execState (canServeFollowerRead r ba pErr) w)
      = FollowerReadsCount w + 1).
Proof.
  split; [split|].
  - intros H. apply served_inv in H as [[He Hs] Hle].
    apply eligible_true in He as (lErr & lh & H1 & H2 & H3 & H4).
    apply batchCanBeFollowerRead_true in H4 as [Hn Hf].
    split; [exists lErr; auto|].
    split; [exists lErr, lh; auto|].
    repeat split; try apply Hn; assumption.
  - intros ((lErr & H1 & H3) & (lErr' & lh & H1' & H2) & Hn & Hf & Hs & Hle).
    apply served_iff; [|exact Hle].
    split; [|exact Hs]. apply eligible_true.
    rewrite H1 in H1'. injection H1' as <-.
    exists lErr, lh. repeat split; auto.
    apply batchCanBeFollowerRead_true. auto.
  - intros H. apply served_inv in H as [Hr Hle].
    unfold execState. rewrite (run_served r w ba pErr Hr Hle). reflexivity.
Qed.

(** Scenario 5 of the specification: epoch 5, closed timestamp 100, a
    non-locking read at 90 on a VOTER_FULL follower is served and counted. *)
Lemma eligibility_equivalence_witness :
  evalState (canServeFollowerRead follower100 (read 90) pErr5) w0 = None
  /\ FollowerReadsCount
       (execState (canServeFollowerRead follower100 (read 90) pErr5) w0) = 1.
Proof.
  assert (E : eligibleForFollowerRead follower100 (read 90) pErr5 w0).
  { split; [eexists; split; reflexivity|].
    split; [do 2 eexists; split; reflexivity|].
    repeat split; try reflexivity; try discriminate.
    eexists; split; reflexivity. }
  destruct (eligibility_equivalence follower100 (read 90) pErr5 w0) as [H1 H2].
  split; [apply H1, E | apply H2, H1, E].
Defined.

(** C1, as stated, fails: an error that names no lease holder satisfies
    every condition the claim lists, and still the error is returned. *)
Lemma eligibility_without_lease_holder_refuted :
  ~ (evalState (canServeFollowerRead follower100 (read 90) pErrNoHolder) w0 = None
     <-> eligibleWithoutLeaseHolder follower100 (read 90) pErrNoHolder w0).
Proof.
  intros [_ H].
  assert (E : eligibleWithoutLeaseHolder follower100 (read 90) pErrNoHolder w0).
  { split; [eexists; split; reflexivity|].
    repeat split; try reflexivity; try discriminate.
    eexists; split; reflexivity. }
  specialize (H E). vm_compute in H. discriminate.
Qed.

(** C2: when the replica's lease is epoch-based (it has no expiration),
    the maximum closed timestamp used by the decision is the maximum of the
    provider's [MaxClosed] for (lease holder node, range, lease epoch, lease
    applied index), the lease start and the initial max-closed value: it is
    their [Forward], it is one of the three and it is above each of them, and
    it is what the decision compares the effective timestamp with.  In
    particular, with a lease started at 200 and a provider that returns zero,
    a request that reaches the timestamp check with effective timestamp 150
    is served. *)
Theorem maxClosed_is_maximum r w :
  Expiration (mu_state_Lease r) = None ->
  let p := providerClosed r in
  let s := Start (mu_state_Lease r) in
  let i := mu_initialMaxClosed r in
  let m := rangeMaxClosed r w in
  m = hlc.Forward (hlc.Forward p s) i
  /\ rangeMaxClosedOk r w = true
  /\ (m = p \/ m = s \/ m = i)
  /\ (hlc.LessEq p m = true /\ hlc.LessEq s m = true /\ hlc.LessEq i m = true)
  /\ (forall ba pErr,
         reachesTimestampCheck r ba pErr ->
         (evalState (canServeFollowerRead r ba pErr) w = None
          <-> hlc.LessEq (effectiveTimestamp ba)
                         (hlc.Forward (hlc.Forward p s) i) = true))
  /\ (forall ba pErr,
         reachesTimestampCheck r ba pErr ->
         s = hlc.mkTimestamp 200 0 ->
         p = hlc.zero ->
         effectiveTimestamp ba = hlc.mkTimestamp 150 0 ->
         evalState (canServeFollowerRead r ba pErr) w = None).
Proof.
  intros He p s i m.
  assert (Hm : m = hlc.Forward (hlc.Forward p s) i).
  { unfold m, rangeMaxClosed, evalState.
    rewrite (maxClosed_epoch r w He). reflexivity. }
  split; [exact Hm|].
  split.
  { unfold rangeMaxClosedOk, evalState.
    rewrite (maxClosed_epoch r w He). reflexivity. }
  assert (Hs : hlc.LessEq s m = true).
  { rewrite Hm. eapply LessEq_trans;
      [apply Forward_upper_r | apply Forward_upper_l]. }
  split.
  { rewrite Hm.
    destruct (Forward_cases (hlc.Forward p s) i) as [-> | ->]; auto.
    destruct (Forward_cases p s) as [-> | ->]; auto. }
  split.
  { repeat split; auto.
    - rewrite Hm. eapply LessEq_trans;
        [apply Forward_upper_l | apply Forward_upper_l].
    - rewrite Hm. apply Forward_upper_r. }
  split.
  { intros ba pErr Hr. rewrite <- Hm. apply served_iff, Hr. }
  intros ba pErr Hr Hs200 _ Hts.
  apply served_iff; [exact Hr|].
  rewrite Hts. fold m. eapply LessEq_trans; [|exact Hs].
  rewrite Hs200. reflexivity.
Qed.

(** Scenario 9 of the specification: just after a lease transfer (lease
    start 200, no watermark for the new epoch), a read at 150 is served. *)
Lemma maxClosed_is_maximum_witness :
  Expiration (mu_state_Lease afterTransfer) = None
  /\ rangeMaxClosed afterTransfer w0 = hlc.mkTimestamp 200 0
  /\ evalState (canServeFollowerRead afterTransfer (read 150) pErr5) w0 = None.
Proof.
  split; [reflexivity|].
  destruct (maxClosed_is_maximum afterTransfer w0 eq_refl)
    as (Hm & _ & _ & _ & _ & Hserve).
  split; [rewrite Hm; reflexivity|].
  apply Hserve; try reflexivity.
  split; [reflexivity|]. eexists; split; reflexivity.
Defined.

(** C4, as amended: [maxClosed] returns [ok = false] exactly when the
    replica's active lease is expiration-based, and then the timestamp is the
    zero value; [canServeFollowerRead] returns the original error, touching
    nothing, whenever the lease carried by the [NotLeaseHolderError] is
    expiration-based; and under an expiration-based active lease it never
    returns [nil] for a request whose effective timestamp is above the zero
    timestamp. *)
Theorem expiration_lease_not_served r w :
  (rangeMaxClosedOk r w = false <-> Expiration (mu_state_Lease r) <> None)
  /\ (Expiration (mu_state_Lease r) <> None ->
      runState (maxClosed r) w = ((hlc.zero, false), w))
  /\ (forall ba pErr lErr,
         asNotLeaseHolderError pErr = Some lErr ->
         Lease_Type (Lease_of lErr) = LeaseExpiration ->
         runState (canServeFollowerRead r ba pErr) w = (Some pErr, w))
  /\ (forall ba pErr,
         Expiration (mu_state_Lease r) <> None ->
         hlc.Less hlc.zero (effectiveTimestamp ba) = true ->
         evalState (canServeFollowerRead r ba pErr) w <> None).
Proof.
  split; [|split; [|split]].
  - unfold rangeMaxClosedOk, evalState.
    destruct (Expiration (mu_state_Lease r)) as [e|] eqn:E.
    + rewrite (maxClosed_expiration r w e E). cbn. split; congruence.
    + rewrite (maxClosed_epoch r w E). cbn. split; congruence.
  - destruct (Expiration (mu_state_Lease r)) as [e|] eqn:E; [|congruence].
    intros _. apply (maxClosed_expiration r w e E).
  - intros ba pErr lErr H1 H2. apply run_ineligible.
    apply (expiration_lease_ineligible r ba pErr lErr H1 H2).
  - intros ba pErr Hx Hpos Hnil.
    apply served_inv in Hnil as [_ Hle].
    destruct (Expiration (mu_state_Lease r)) as [e|] eqn:E; [|congruence].
    unfold rangeMaxClosed, evalState in Hle.
    rewrite (maxClosed_expiration r w e E) in Hle. cbn in Hle.
    rewrite (not_LessEq_of_Less _ _ Hpos) in Hle. discriminate.
Qed.

(** Scenario 8 of the specification: under an expiration-based lease,
    [maxClosed] answers (zero, false) and the routing error that carries this
    lease comes back. *)
Lemma expiration_lease_not_served_witness :
  Expiration (mu_state_Lease underExpiration) <> None
  /\ runState (maxClosed underExpiration) w0 = ((hlc.zero, false), w0)
  /\ runState (canServeFollowerRead underExpiration (read 90) pErrExpiration) w0
     = (Some pErrExpiration, w0)
  /\ evalState (canServeFollowerRead underExpiration (read 90) pErr5) w0 <> None.
Proof.
  assert (Hx : Expiration (mu_state_Lease underExpiration) <> None)
    by discriminate.
  destruct (expiration_lease_not_served underExpiration w0)
    as (_ & H2 & H3 & H4).
  split; [exact Hx|].
  split; [exact (H2 Hx)|].
  split.
  - apply (H3 (read 90) pErrExpiration
              (mkNotLeaseHolderError (Some leaseHolder) expirationLease));
      reflexivity.
  - apply (H4 (read 90) pErr5 Hx). reflexivity.
Defined.

(** C4, as stated, fails: the replica's active lease is expiration-based
    (by its type, its epoch and its expiration), the routing error carries an
    epoch-based lease, and a request at the zero timestamp is served. *)
Lemma expiration_lease_served_at_zero :
  Lease_Type (mu_state_Lease underExpiration) = LeaseExpiration
  /\ Expiration (mu_state_Lease underExpiration) <> None
  /\ rangeMaxClosedOk underExpiration w0 = false
  /\ evalState (canServeFollowerRead underExpiration (read 0) pErr5) w0 = None
  /\ evalState (canServeFollowerRead underExpiration (read 0) pErr5) w0
     <> Some pErr5.
Proof.
  split; [reflexivity|].
  split; [discriminate|].
  split; [reflexivity|].
  split; [reflexivity|].
  vm_compute. discriminate.
Qed.

(** C5: a request that passes every condition but the timestamp check
    (its effective timestamp is strictly above the maximum closed timestamp)
    gets the prior error back, exactly one refresh request is sent to the
    closed-timestamp clients, for (lease holder node, range), and the counter
    is left alone. *)
Theorem too_low_requests_refresh r ba pErr w lErr leaseHolder :
  asNotLeaseHolderError pErr = Some lErr ->
  LeaseHolder lErr = Some leaseHolder ->
  reachesTimestampCheck r ba pErr ->
  hlc.Less (rangeMaxClosed r w) (effectiveTimestamp ba) = true ->
  evalState (canServeFollowerRead r ba pErr) w = Some pErr
  /\ ClientRequests (execState (canServeFollowerRead r ba pErr) w)
     = ClientRequests w ++ [(NodeID_of leaseHolder, RangeID_of r)]
  /\ FollowerReadsCount (execState (canServeFollowerRead r ba pErr) w)
     = FollowerReadsCount w.
Proof.
  intros H1 H2 Hr Hlt.
  apply not_LessEq_of_Less in Hlt.
  unfold evalState, execState.
  rewrite (run_too_low r w ba pErr lErr leaseHolder H1 H2 Hr Hlt).
  cbn. auto.
Qed.

(** Scenario 6 of the specification: closed timestamp 100, read at 110. *)
Lemma too_low_requests_refresh_witness :
  hlc.Less (rangeMaxClosed follower100 w0) (effectiveTimestamp (read 110)) = true
  /\ evalState (canServeFollowerRead follower100 (read 110) pErr5) w0 = Some pErr5
  /\ ClientRequests (execState (canServeFollowerRead follower100 (read 110) pErr5) w0)
     = [(1, 7)].
Proof.
  split; [reflexivity|].
  destruct (too_low_requests_refresh follower100 (read 110) pErr5 w0
              (mkNotLeaseHolderError (Some leaseHolder) (epochLease (at_ 10)))
              leaseHolder eq_refl eq_refl) as (H1 & H2 & _).
  - split; [reflexivity|]. eexists; split; reflexivity.
  - reflexivity.
  - split; [exact H1 | exact H2].
Defined.

(** C6: the effective timestamp is the request's timestamp when the batch
    carries no transaction, and the maximum of the request's timestamp and
    the transaction's [MaxTimestamp] when it does (their [Forward]: one of the
    two, above both); it is the timestamp the decision compares with the
    maximum closed timestamp; in particular a request whose transaction's
    [MaxTimestamp] exceeds the maximum closed timestamp is never served. *)
Theorem effective_timestamp_is_pessimistic ba :
  (Txn ba = None -> effectiveTimestamp ba = roachpb.Timestamp ba)
  /\ (forall txn, Txn ba = Some txn ->
        let ts := effectiveTimestamp ba in
        ts = hlc.Forward (roachpb.Timestamp ba) (MaxTimestamp txn)
        /\ (ts = roachpb.Timestamp ba \/ ts = MaxTimestamp txn)
        /\ hlc.LessEq (roachpb.Timestamp ba) ts = true
        /\ hlc.LessEq (MaxTimestamp txn) ts = true
        /\ (forall r pErr w,
               hlc.Less (rangeMaxClosed r w) (MaxTimestamp txn) = true ->
               evalState (canServeFollowerRead r ba pErr) w <> None))
  /\ (forall r pErr w,
         reachesTimestampCheck r ba pErr ->
         (evalState (canServeFollowerRead r ba pErr) w = None
          <-> hlc.LessEq (effectiveTimestamp ba) (rangeMaxClosed r w) = true)).
Proof.
  split; [|split].
  - intros H. unfold effectiveTimestamp. rewrite H. reflexivity.
  - intros txn H ts.
    assert (Hts : ts = hlc.Forward (roachpb.Timestamp ba) (MaxTimestamp txn)).
    { unfold ts, effectiveTimestamp. rewrite H. reflexivity. }
    split; [exact Hts|].
    split; [rewrite Hts; apply Forward_cases|].
    split; [rewrite Hts; apply Forward_upper_l|].
    split; [rewrite Hts; apply Forward_upper_r|].
    intros r pErr w Hlt Hnil.
    apply served_inv in Hnil as [_ Hle].
    fold ts in Hle.
    assert (Hmax : hlc.LessEq (MaxTimestamp txn) (rangeMaxClosed r w) = true).
    { eapply LessEq_trans; [|exact Hle]. rewrite Hts. apply Forward_upper_r. }
    rewrite (not_LessEq_of_Less _ _ Hlt) in Hmax. discriminate.
  - intros r pErr w Hr. apply served_iff. exact Hr.
Qed.

(** A transactional read at 90 whose uncertainty interval ends at 110 is not
    served under the closed timestamp 100, although 90 alone would be. *)
Lemma effective_timestamp_is_pessimistic_witness :
  effectiveTimestamp (txnRead 90 110) = at_ 110
  /\ hlc.LessEq (roachpb.Timestamp (txnRead 90 110))
                (rangeMaxClosed follower100 w0) = true
  /\ evalState (canServeFollowerRead follower100 (txnRead 90 110) pErr5) w0
     <> None
  /\ effectiveTimestamp (read 90) = roachpb.Timestamp (read 90).
Proof.
  destruct (effective_timestamp_is_pessimistic (txnRead 90 110))
    as (_ & H & _).
  destruct (H (mkTransaction (at_ 110) false) eq_refl) as (H1 & _ & _ & _ & H5).
  split; [rewrite H1; reflexivity|].
  split; [reflexivity|].
  split; [apply H5; reflexivity|].
  apply (proj1 (effective_timestamp_is_pessimistic (read 90))). reflexivity.
Defined.

(** C7: if the prior error carries no [NotLeaseHolderError], or its lease
    is not epoch-based, or the batch is locking, or not all-transactional, or
    its transaction is locking, or follower reads are disabled, then
    [canServeFollowerRead] returns the prior error itself and touches nothing:
    no provider query, no counter increment, no refresh request.  The same
    holds when the local replica's descriptor type is none of VOTER_FULL,
    VOTER_INCOMING, NON_VOTER. *)
Theorem ineligible_returns_prior_error r ba pErr w :
  (gateFails r ba pErr ->
   runState (canServeFollowerRead r ba pErr) w = (Some pErr, w))
  /\ (forall repDesc,
         GetReplicaDescriptor r = inl repDesc ->
         GetType repDesc <> VOTER_FULL ->
         GetType repDesc <> VOTER_INCOMING ->
         GetType repDesc <> NON_VOTER ->
         runState (canServeFollowerRead r ba pErr) w = (Some pErr, w)).
Proof.
  split.
  - intros H. apply run_ineligible, gateFails_ineligible, H.
  - intros d Hd H1 H2 H3.
    destruct (eligible r ba pErr) eqn:He.
    + apply (run_wrong_type r w ba pErr d He Hd).
      destruct (canServeType (GetType d)) eqn:Ht; [|reflexivity].
      apply canServeType_spec in Ht. tauto.
    + apply run_ineligible, He.
Qed.

(** Scenario 7 of the specification (a locking request is ineligible
    whatever its timestamp), and a LEARNER replica. *)
Lemma ineligible_returns_prior_error_witness :
  gateFails follower100 (lockingRead 90) pErr5
  /\ runState (canServeFollowerRead follower100 (lockingRead 90) pErr5) w0
     = (Some pErr5, w0)
  /\ runState (canServeFollowerRead learner (read 90) pErr5) w0
     = (Some pErr5, w0).
Proof.
  assert (G : gateFails follower100 (lockingRead 90) pErr5).
  { right; right; left. reflexivity. }
  split; [exact G|].
  split.
  - apply (proj1 (ineligible_returns_prior_error
                    follower100 (lockingRead 90) pErr5 w0) G).
  - apply (proj2 (ineligible_returns_prior_error learner (read 90) pErr5 w0)
             (follower LEARNER) eq_refl); discriminate.
Defined.

(** C8: for a request that passes the conditions on the error, the batch
    and the setting, if the local replica descriptor cannot be resolved then
    [canServeFollowerRead] returns a new error that wraps the failure: it is
    neither the prior error nor [nil], and nothing is served or touched. *)
Theorem descriptor_failure_is_returned r ba pErr w err :
  eligible r ba pErr = true ->
  GetReplicaDescriptor r = inr err ->
  evalState (canServeFollowerRead r ba pErr) w = Some (NewError err)
  /\ evalState (canServeFollowerRead r ba pErr) w <> Some pErr
  /\ evalState (canServeFollowerRead r ba pErr) w <> None
  /\ execState (canServeFollowerRead r ba pErr) w = w.
Proof.
  intros He Hd. unfold evalState, execState.
  rewrite (run_descriptor_failure r w ba pErr err He Hd). cbn.
  repeat split; try discriminate.
  intros H. injection H as H.
  apply eligible_true in He as (lErr & lh & H1 & _).
  rewrite <- H in H1. discriminate.
Qed.

(** The replica has been removed from the range: a read that would
    otherwise be served gets the lookup failure. *)
Lemma descriptor_failure_is_returned_witness :
  eligible removed (read 90) pErr5 = true
  /\ evalState (canServeFollowerRead removed (read 90) pErr5) w0
     = Some (NewError "replica not found"%string)
  /\ execState (canServeFollowerRead removed (read 90) pErr5) w0 = w0.
Proof.
  split; [reflexivity|].
  destruct (descriptor_failure_is_returned removed (read 90) pErr5 w0
              "replica not found"%string eq_refl eq_refl) as (H1 & _ & _ & H4).
  split; [exact H1 | exact H4].
Defined.

(** C9: if the [NotLeaseHolderError] names no lease holder, the prior
    error is returned and nothing is touched, whatever the other
    conditions. *)
Theorem nil_lease_holder_is_ineligible r ba pErr w lErr :
  asNotLeaseHolderError pErr = Some lErr ->
  LeaseHolder lErr = None ->
  runState (canServeFollowerRead r ba pErr) w = (Some pErr, w).
Proof.
  intros H1 H2. apply run_ineligible. unfold eligible.
  rewrite H1, H2. reflexivity.
Qed.

(** Every other condition holds (epoch-based lease, non-locking
    all-transactional batch, setting enabled, VOTER_FULL replica, 90 below the
    closed timestamp 100), and the error is returned. *)
Lemma nil_lease_holder_is_ineligible_witness :
  eligibleWithoutLeaseHolder follower100 (read 90) pErrNoHolder w0
  /\ runState (canServeFollowerRead follower100 (read 90) pErrNoHolder) w0
     = (Some pErrNoHolder, w0).
Proof.
  split.
  - split; [eexists; split; reflexivity|].
    repeat split; try reflexivity; try discriminate.
    eexists; split; reflexivity.
  - apply (nil_lease_holder_is_ineligible follower100 (read 90) pErrNoHolder w0
             (mkNotLeaseHolderError None (epochLease (at_ 10))));
      reflexivity.
Defined.

(** C10: [canServeFollowerRead] ignores the [ok] flag of [maxClosed].
    When the [NotLeaseHolderError] carries an epoch-based lease (and the
    request reaches the timestamp check) but the replica's current lease is
    expiration-based, [maxClosed] answers (zero, false), the effective
    timestamp is compared with the zero timestamp, and the request is served
    exactly when its effective timestamp is at most zero: for a clock
    timestamp (non-negative components), exactly when it is the zero
    timestamp.  A request with a positive effective timestamp gets the prior
    error back. *)
Theorem ok_flag_discarded r ba pErr w e :
  carriesEpochLease pErr ->
  reachesTimestampCheck r ba pErr ->
  Expiration (mu_state_Lease r) = Some e ->
  evalState (maxClosed r) w = (hlc.zero, false)
  /\ (evalState (canServeFollowerRead r ba pErr) w = None
      <-> hlc.LessEq (effectiveTimestamp ba) hlc.zero = true)
  /\ (hlc.nonneg (effectiveTimestamp ba) ->
      (evalState (canServeFollowerRead r ba pErr) w = None
       <-> effectiveTimestamp ba = hlc.zero))
  /\ (hlc.Less hlc.zero (effectiveTimestamp ba) = true ->
      evalState (canServeFollowerRead r ba pErr) w = Some pErr).
Proof.
  intros _ Hr He.
  assert (Hz : rangeMaxClosed r w = hlc.zero).
  { unfold rangeMaxClosed, evalState.
    rewrite (maxClosed_expiration r w e He). reflexivity. }
  assert (Hiff : evalState (canServeFollowerRead r ba pErr) w = None
                 <-> hlc.LessEq (effectiveTimestamp ba) hlc.zero = true).
  { rewrite <- Hz. apply served_iff, Hr. }
  split.
  { unfold evalState. rewrite (maxClosed_expiration r w e He). reflexivity. }
  split; [exact Hiff|].
  split.
  - intros Hn. rewrite Hiff. apply LessEq_zero_nonneg, Hn.
  - intros Hpos.
    destruct (proj1 (eligible_true r ba pErr) (proj1 Hr))
      as (lErr & lh & H1 & H2 & _).
    unfold evalState.
    rewrite (run_too_low r w ba pErr lErr lh H1 H2 Hr); [reflexivity|].
    rewrite Hz. apply not_LessEq_of_Less, Hpos.
Qed.

(** Under the expiration-based lease, with the routing error of the epoch-5
    lease: the read at the zero timestamp is served, the read at 1 is not. *)
Lemma ok_flag_discarded_witness :
  evalState (canServeFollowerRead underExpiration (read 0) pErr5) w0 = None
  /\ evalState (canServeFollowerRead underExpiration (read 1) pErr5) w0
     = Some pErr5.
Proof.
  assert (C : carriesEpochLease pErr5) by (eexists; split; reflexivity).
  assert (R : forall t, reachesTimestampCheck underExpiration (read t) pErr5).
  { intros t. split; [reflexivity|]. eexists; split; reflexivity. }
  split.
  - destruct (ok_flag_discarded underExpiration (read 0) pErr5 w0 (at_ 1000)
                C (R 0) eq_refl) as (_ & _ & H & _).
    apply H; [split; cbn; lia | reflexivity].
  - destruct (ok_flag_discarded underExpiration (read 1) pErr5 w0 (at_ 1000)
                C (R 1) eq_refl) as (_ & _ & _ & H).
    apply H. reflexivity.
Defined.

(* ===================================================================== *)
(** ** Properties of the MVCC write-ordering contract *)
(* ===================================================================== *)

Module storage_facts.
Import storage.

Lemma latest_above_start l : forall t0,
  hlc.LessEq t0 (latest t0 l) = true.
Proof.
  unfold latest. induction l as [|x l IH]; intros t0; simpl.
  - apply LessEq_refl.
  - eapply LessEq_trans; [apply Forward_upper_l | apply IH].
Qed.

Lemma latest_above_members l : forall t0 x,
  In x l -> hlc.LessEq (Timestamp_of x) (latest t0 l) = true.
Proof.
  induction l as [|y l IH]; intros t0 x Hin; [contradiction|].
  destruct Hin as [-> | Hin].
  - change (latest t0 (x :: l))
      with (latest (hlc.Forward t0 (Timestamp_of x)) l).
    eapply LessEq_trans; [apply Forward_upper_r | apply latest_above_start].
  - apply (IH (hlc.Forward t0 (Timestamp_of y)) x Hin).
Qed.

Lemma latest_is_reached l : forall t0,
  latest t0 l = t0 \/ exists x, In x l /\ latest t0 l = Timestamp_of x.
Proof.
  induction l as [|y l IH]; intros t0; [left; reflexivity|].
  change (latest t0 (y :: l))
    with (latest (hlc.Forward t0 (Timestamp_of y)) l).
  destruct (IH (hlc.Forward t0 (Timestamp_of y))) as [H | (x & Hx & H)].
  - rewrite H. destruct (Forward_cases t0 (Timestamp_of y)) as [-> | ->].
    + left; reflexivity.
    + right. exists y. split; [left; reflexivity | reflexivity].
  - right. exists x. split; [right; exact Hx | exact H].
Qed.

Lemma conflicting_In s k ts x :
  In x (conflicting s k ts)
  <-> In x s /\ Key_of x = k /\ hlc.LessEq ts (Timestamp_of x) = true.
Proof.
  unfold conflicting, versionsOf. rewrite !filter_In, String.eqb_eq. tauto.
Qed.

(** A write at or below the newest version [t] of its key is applied at
    the successor of [t] and reports a [WriteTooOldError]. *)
Lemma Put_write_too_old s k ts t v0 v :
  In (mkVersion k t v0) s ->
  (forall x, In x s -> Key_of x = k ->
             hlc.LessEq (Timestamp_of x) t = true) ->
  hlc.LessEq ts t = true ->
  Put s k ts v =
  (mkVersion k (hlc.Next t) v :: s, hlc.Next t,
   Some (mkWriteTooOldError ts (hlc.Next t))).
Proof.
  intros Hin Hmax Hle. unfold Put.
  assert (Hc : In (mkVersion k t v0) (conflicting s k ts)).
  { apply conflicting_In. auto. }
  destruct (conflicting s k ts) as [|c cs] eqn:E; [contradiction|].
  assert (Hl : latest (Timestamp_of c) cs = t).
  { apply LessEq_antisym.
    - assert (Hall : forall x, In x (c :: cs) ->
                               hlc.LessEq (Timestamp_of x) t = true).
      { intros x Hx. rewrite <- E in Hx.
        apply conflicting_In in Hx as (H1 & H2 & _). auto. }
      destruct (latest_is_reached cs (Timestamp_of c)) as [-> | (x & Hx & ->)].
      + apply Hall. left; reflexivity.
      + apply Hall. right; exact Hx.
    - destruct Hc as [-> | Hc].
      + apply (latest_above_start cs t).
      + apply (latest_above_members cs (Timestamp_of c) _ Hc). }
  rewrite Hl. reflexivity.
Qed.

Lemma versionAt_other s k ts x :
  versionAt (x :: s) k ts = versionAt s k ts
  \/ (Key_of x = k /\ Timestamp_of x = ts).
Proof.
  unfold versionAt. simpl.
  destruct (String.eqb_spec (Key_of x) k) as [Hk|Hk]; [|left; reflexivity].
  destruct (hlc.eqb (Timestamp_of x) ts) eqn:Ht; [|left; reflexivity].
  right. split; [exact Hk | now apply eqb_eq].
Qed.

End storage_facts.

Import storage storage_facts.
Local Open Scope string_scope.

(** C3: if the newest version of key "a" is the one at 44.000000000,0,
    then a Put (of any value) or a Delete of "a" requested at timestamp 33
    returns a [WriteTooOldError] whose actual timestamp is 44.000000000,1
    (same wall time, logical bumped to 1); the write is applied at
    44.000000000,1 all the same, and the versions already stored, the one at
    44.000000000,0 among them, are unchanged. *)
Theorem write_too_old_round_trip (s : Store) (v0 v : Value) :
  In (mkVersion "a" (seconds 44 0) v0) s ->
  (forall x, In x s -> Key_of x = "a" ->
             hlc.LessEq (Timestamp_of x) (seconds 44 0) = true) ->
  let put := Put s "a" (seconds 33 0) v in
  let s' := fst (fst put) in
  snd put = Some (mkWriteTooOldError (seconds 33 0) (seconds 44 1))
  /\ snd (fst put) = seconds 44 1
  /\ s' = mkVersion "a" (seconds 44 1) v :: s
  /\ versionAt s' "a" (seconds 44 1) = Some (mkVersion "a" (seconds 44 1) v)
  /\ In (mkVersion "a" (seconds 44 0) v0) s'
  /\ versionAt s' "a" (seconds 44 0) = versionAt s "a" (seconds 44 0)
  /\ (forall x, In x s -> In x s')
  /\ Delete s "a" (seconds 33 0)
     = (mkVersion "a" (seconds 44 1) Tombstone :: s, seconds 44 1,
        Some (mkWriteTooOldError (seconds 33 0) (seconds 44 1))).
Proof.
  intros Hin Hmax put s'.
  assert (Hput : forall u, Put s "a" (seconds 33 0) u =
            (mkVersion "a" (seconds 44 1) u :: s, seconds 44 1,
             Some (mkWriteTooOldError (seconds 33 0) (seconds 44 1)))).
  { intros u.
    apply (Put_write_too_old s "a" (seconds 33 0) (seconds 44 0) v0 u Hin Hmax).
    reflexivity. }
  unfold s', put. rewrite Hput. cbn [fst snd].
  split; [reflexivity|].
  split; [reflexivity|].
  split; [reflexivity|].
  split; [reflexivity|].
  split; [right; exact Hin|].
  split.
  { destruct (versionAt_other s "a" (seconds 44 0)
                (mkVersion "a" (seconds 44 1) v)) as [H | [_ H]];
      [exact H | discriminate H]. }
  split; [intros x Hx; right; exact Hx|].
  apply Hput.
Qed.

(** The test file itself: after [put k=a v=abc] at 44, [del k=a] at 33
    reports "write at timestamp 33.000000000,0 too old; wrote at
    44.000000000,1" and leaves the two [data:] lines of the expected
    output. *)
Lemma write_too_old_round_trip_witness :
  Put [] "a" (seconds 44 0) (Bytes "abc") = (scenarios.storeA44, seconds 44 0, None)
  /\ Delete scenarios.storeA44 "a" (seconds 33 0)
     = ([mkVersion "a" (seconds 44 1) Tombstone;
         mkVersion "a" (seconds 44 0) (Bytes "abc")],
        seconds 44 1,
        Some (mkWriteTooOldError (seconds 33 0) (seconds 44 1))).
Proof.
  split; [reflexivity|].
  apply (write_too_old_round_trip scenarios.storeA44 (Bytes "abc") Tombstone).
  - left. reflexivity.
  - intros x [<- | []] _. reflexivity.
Defined.

(* ===================================================================== *)
(** ** Further properties of the follower-read decision *)
(* ===================================================================== *)

Module decision_facts.
Import hlc_facts kvserver_facts decision.
Local Close Scope string_scope.

Lemma Forward_mono_l a a' b :
  hlc.LessEq a a' = true ->
  hlc.LessEq (hlc.Forward a b) (hlc.Forward a' b) = true.
Proof. intros H. ts_cases. Qed.

(** Every call takes one of the five ways out. *)
Lemma run_outcome r ba pErr w :
  Outcome r ba pErr w (evalState (canServeFollowerRead r ba pErr) w)
                      (execState (canServeFollowerRead r ba pErr) w).
Proof.
  unfold evalState, execState.
  destruct (eligible r ba pErr) eqn:He.
  - destruct (GetReplicaDescriptor r) as [d|err] eqn:Hd.
    + destruct (canServeType (GetType d)) eqn:Ht.
      * assert (Hr : reachesTimestampCheck r ba pErr).
        { split; [exact He|]. exists d. auto. }
        destruct (hlc.LessEq (effectiveTimestamp ba) (rangeMaxClosed r w)) eqn:E.
        -- rewrite (run_served r w ba pErr Hr E). now apply Served.
        -- destruct (proj1 (eligible_true r ba pErr) He)
             as (lErr & lh & H1 & H2 & _).
           rewrite (run_too_low r w ba pErr lErr lh H1 H2 Hr E).
           now apply (TooLow r ba pErr w lErr lh).
      * rewrite (run_wrong_type r w ba pErr d He Hd Ht).
        now apply (WrongType r ba pErr w d).
    + rewrite (run_descriptor_failure r w ba pErr err He Hd).
      now apply DescriptorFailure.
  - rewrite (run_ineligible r w ba pErr He). now apply Ineligible.
Qed.

(** What [maxClosed] answers does not depend on the effects so far. *)
Lemma rangeMaxClosed_indep r w w' : rangeMaxClosed r w = rangeMaxClosed r w'.
Proof.
  unfold rangeMaxClosed, evalState.
  destruct (Expiration (mu_state_Lease r)) as [e|] eqn:E.
  - now rewrite !(maxClosed_expiration r _ e E).
  - now rewrite !(maxClosed_epoch r _ E).
Qed.

Lemma maxClosed_queries r w :
  ProviderQueries (execState (maxClosed r) w) =
  match Expiration (mu_state_Lease r) with
  | Some _ => ProviderQueries w
  | None => ProviderQueries w ++ [leaseQuery r]
  end.
Proof.
  unfold execState.
  destruct (Expiration (mu_state_Lease r)) as [e|] eqn:E.
  - now rewrite (maxClosed_expiration r w e E).
  - now rewrite (maxClosed_epoch r w E).
Qed.


End decision_facts.

Import decision decision_facts.
Local Close Scope string_scope.

(** X1: [canServeFollowerRead] returns [nil], the prior error itself, or
    the wrapped failure of the replica-descriptor lookup; the last only when
    the request passed lines 43-53 and the lookup failed.  It never returns
    any other error. *)
Theorem result_is_nil_prior_or_lookup_failure r ba pErr w :
  let res := evalState (canServeFollowerRead r ba pErr) w in
  res = None
  \/ res = Some pErr
  \/ (exists err, eligible r ba pErr = true
                  /\ GetReplicaDescriptor r = inr err
                  /\ res = Some (NewError err)).
Proof.
  cbv zeta.
  destruct (run_outcome r ba pErr w); auto.
  right; right. exists err. auto.
Qed.

(** X2: on every path the follower-reads counter grows by one when [nil]
    is returned and is left as it was when an error is returned. *)
Theorem counter_counts_served_reads r ba pErr w :
  FollowerReadsCount (execState (canServeFollowerRead r ba pErr) w)
  = FollowerReadsCount w
    + servedCount [evalState (canServeFollowerRead r ba pErr) w].
Proof.
  destruct (run_outcome r ba pErr w); cbn; lia.
Qed.

(** X3: a call sends at most one refresh request, and sends it only for a
    request that reached the timestamp check and whose effective timestamp
    is strictly above the maximum closed timestamp; the prior error is then
    returned and the counter is untouched.  In every other case, served reads
    included, the clients are left alone. *)
Theorem refresh_only_when_closed_timestamp_too_low r ba pErr w :
  let res := evalState (canServeFollowerRead r ba pErr) w in
  let w' := execState (canServeFollowerRead r ba pErr) w in
  ClientRequests w' = ClientRequests w
  \/ (exists lErr leaseHolder,
        asNotLeaseHolderError pErr = Some lErr
        /\ LeaseHolder lErr = Some leaseHolder
        /\ reachesTimestampCheck r ba pErr
        /\ hlc.Less (rangeMaxClosed r w) (effectiveTimestamp ba) = true
        /\ res = Some pErr
        /\ FollowerReadsCount w' = FollowerReadsCount w
        /\ ClientRequests w'
           = ClientRequests w ++ [(NodeID_of leaseHolder, RangeID_of r)]).
Proof.
  cbv zeta.
  destruct (run_outcome r ba pErr w) as [| | |lErr lh H1 H2 Hr E|]; auto.
  right. exists lErr, lh. repeat split; auto; try apply Hr.
  rewrite LessEq_negb_Less in E. now apply negb_false_iff in E.
Qed.

(** X4: the closed-timestamp provider is consulted exactly once, for
    (node of the current lease's holder, range, epoch of the current lease,
    lease applied index), when the request reaches the timestamp check and
    the replica's current lease has no expiration; in every other case it is
    not consulted at all. *)
Theorem provider_consulted_only_at_timestamp_check r ba pErr w :
  let w' := execState (canServeFollowerRead r ba pErr) w in
  (reachesTimestampCheck r ba pErr ->
   Expiration (mu_state_Lease r) = None ->
   ProviderQueries w' = ProviderQueries w ++ [leaseQuery r])
  /\ (ProviderQueries w' <> ProviderQueries w ->
      reachesTimestampCheck r ba pErr /\ Expiration (mu_state_Lease r) = None).
Proof.
  cbv zeta. split.
  - intros [He (d & Hd & Ht)] Hx.
    destruct (run_outcome r ba pErr w) as [He'|err _ Hd'|d' _ Hd' Ht'| |];
      cbn [ProviderQueries]; try congruence;
      rewrite maxClosed_queries, Hx; reflexivity.
  - destruct (run_outcome r ba pErr w) as [| | |lErr lh H1 H2 Hr E|Hr E];
      cbn [ProviderQueries]; try congruence;
      rewrite maxClosed_queries;
      destruct (Expiration (mu_state_Lease r)); intros H;
      try congruence; auto.
Qed.

(** A read at 90 under the closed timestamp 100 queries the provider for
    (node 1, range 7, epoch 5, index 12); a locking read does not. *)
Lemma provider_consulted_only_at_timestamp_check_witness :
  ProviderQueries
    (execState (canServeFollowerRead follower100 (read 90) pErr5) w0)
  = [(1, 7, 5, 12)].
Proof.
  apply (proj1 (provider_consulted_only_at_timestamp_check
                  follower100 (read 90) pErr5 w0)).
  - split; [reflexivity|]. eexists; split; reflexivity.
  - reflexivity.
Defined.

(** X5: serving is downward closed in the timestamp (the TODO of lines
    101-102): once a batch has been served, any batch that passes the same
    conditions of lines 46-48 and whose effective timestamp is not above the
    served one is served too, with the same replica state and routing
    error. *)
Theorem serving_is_downward_closed r ba ba' pErr w w' :
  evalState (canServeFollowerRead r ba pErr) w = None ->
  batchCanBeFollowerRead r ba' = true ->
  hlc.LessEq (effectiveTimestamp ba') (effectiveTimestamp ba) = true ->
  evalState (canServeFollowerRead r ba' pErr) w' = None.
Proof.
  intros H Hb Hle.
  apply served_inv in H as [[He Hs] Hts].
  apply eligible_true in He as (lErr & lh & H1 & H2 & H3 & _).
  apply served_iff.
  - split; [|exact Hs]. apply eligible_true. exists lErr, lh. auto.
  - rewrite (rangeMaxClosed_indep r w' w).
    eapply LessEq_trans; [exact Hle | exact Hts].
Qed.

(** The read at 90 is served under the closed timestamp 100, hence so is the
    transactional read at 50 whose uncertainty interval ends at 80. *)
Lemma serving_is_downward_closed_witness :
  evalState (canServeFollowerRead follower100 (txnRead 50 80) pErr5) w0 = None.
Proof.
  apply (serving_is_downward_closed follower100 (read 90) (txnRead 50 80)
           pErr5 w0 w0); reflexivity.
Defined.

(** X6: a fresher watermark never revokes a follower read: if the
    provider's answers only move forward, with the lease, the descriptor and
    the setting unchanged, a batch that was served is still served. *)
Theorem fresher_watermark_keeps_serving r p' ba pErr w w' :
  (forall n rng e lai,
      hlc.LessEq (Provider_MaxClosed r n rng e lai) (p' n rng e lai) = true) ->
  evalState (canServeFollowerRead r ba pErr) w = None ->
  evalState (canServeFollowerRead (withProvider r p') ba pErr) w' = None.
Proof.
  intros Hp H.
  apply served_inv in H as [[He Hs] Hts].
  apply served_iff; [split; [exact He | exact Hs]|].
  eapply LessEq_trans; [exact Hts|].
  unfold rangeMaxClosed, evalState.
  destruct (Expiration (mu_state_Lease r)) as [e|] eqn:E.
  - rewrite (maxClosed_expiration r w e E).
    rewrite (maxClosed_expiration (withProvider r p') w' e E). reflexivity.
  - rewrite (maxClosed_epoch r w E).
    rewrite (maxClosed_epoch (withProvider r p') w' E). cbn [fst].
    apply Forward_mono_l, Forward_mono_l. apply Hp.
Qed.

(** The read at 90, served under the watermark 100, is served under 120. *)
Lemma fresher_watermark_keeps_serving_witness :
  evalState (canServeFollowerRead
               (withProvider follower100 (provider (at_ 120)))
               (read 90) pErr5) w0 = None.
Proof.
  apply (fresher_watermark_keeps_serving follower100 (provider (at_ 120))
           (read 90) pErr5 w0 w0); [|reflexivity].
  intros n rng e lai. cbn. unfold provider.
  destruct ((n =? 1) && (rng =? 7) && (e =? 5))%bool; reflexivity.
Defined.

(** X7: under a lease without expiration, a request that reaches the
    timestamp check is served exactly when its effective timestamp is closed
    by at least one of the three sources: the provider's watermark for the
    current lease, the start of the current lease, or the initial max-closed
    value. *)
Theorem served_iff_closed_by_some_source r ba pErr w :
  reachesTimestampCheck r ba pErr ->
  Expiration (mu_state_Lease r) = None ->
  (evalState (canServeFollowerRead r ba pErr) w = None
   <-> hlc.LessEq (effectiveTimestamp ba) (providerClosed r) = true
       \/ hlc.LessEq (effectiveTimestamp ba) (Start (mu_state_Lease r)) = true
       \/ hlc.LessEq (effectiveTimestamp ba) (mu_initialMaxClosed r) = true).
Proof.
  intros Hr Hx.
  rewrite (served_iff r w ba pErr Hr).
  unfold rangeMaxClosed, evalState. rewrite (maxClosed_epoch r w Hx).
  cbn [fst]. rewrite !LessEq_Forward, !orb_true_iff. tauto.
Qed.

(** After the lease transfer the read at 150 is closed by the lease start
    alone; the read at 250 by none of the three. *)
Lemma served_iff_closed_by_some_source_witness :
  evalState (canServeFollowerRead afterTransfer (read 150) pErr5) w0 = None
  /\ evalState (canServeFollowerRead afterTransfer (read 250) pErr5) w0 <> None.
Proof.
  assert (R : forall t, reachesTimestampCheck afterTransfer (read t) pErr5).
  { intros t. split; [reflexivity|]. eexists; split; reflexivity. }
  split.
  - apply (served_iff_closed_by_some_source afterTransfer (read 150) pErr5 w0
             (R 150) eq_refl).
    right; left. reflexivity.
  - intros H.
    apply (served_iff_closed_by_some_source afterTransfer (read 250) pErr5 w0
             (R 250) eq_refl) in H.
    destruct H as [H | [H | H]]; discriminate H.
Defined.




(* ===================================================================== *)
(** ** Properties of ALTER TABLE ... SET LOCALITY *)
(* ===================================================================== *)

Module sql_facts.
Import tree descpb sql.
Local Open Scope string_scope.
Local Open Scope list_scope.

Lemma run_orReturn (m : M (option error)) (k : M result) s :
  runState (orReturn m k) s =
  match fst (runState m s) with
  | Some err => (Err err, snd (runState m s))
  | None => runState k (snd (runState m s))
  end.
Proof.
  unfold orReturn. cbn. destruct (runState m s) as [[err|] s']; reflexivity.
Qed.

Lemma run_andThen (m k : M result) s :
  runState (andThen m k) s =
  match fst (runState m s) with
  | Nil => runState k (snd (runState m s))
  | r => (r, snd (runState m s))
  end.
Proof.
  unfold andThen. cbn. destruct (runState m s) as [[|e|] s']; reflexivity.
Qed.

Lemma run_do_Validate c d cs :
  runState (do_ValidateTableLocalityConfig c) (mkNodeState d cs) =
  (ValidateTableLocalityConfig c d,
   mkNodeState d (cs ++ [CallValidateTableLocalityConfig d])).
Proof. reflexivity. Qed.

Lemma run_do_write c m d cs :
  runState (do_writeSchemaChange c m) (mkNodeState d cs) =
  (snd (writeSchemaChange c d m),
   mkNodeState (fst (writeSchemaChange c d m))
               (cs ++ [CallWriteSchemaChange d m])).
Proof. reflexivity. Qed.

Lemma run_do_applyZone c rc d cs :
  runState (do_applyZoneConfigForMultiRegionTable c rc) (mkNodeState d cs) =
  (applyZoneConfigForMultiRegionTable c rc d,
   mkNodeState d (cs ++ [CallApplyZoneConfig rc d])).
Proof. reflexivity. Qed.

Lemma run_do_AlterPrimaryKey c alter swap d cs :
  runState (do_AlterPrimaryKey c alter swap) (mkNodeState d cs) =
  (snd (AlterPrimaryKey c d alter swap),
   mkNodeState (fst (AlterPrimaryKey c d alter swap))
               (cs ++ [CallAlterPrimaryKey d alter swap])).
Proof. reflexivity. Qed.

Lemma run_logAlterTable c node d cs :
  runState (logAlterTable c node) (mkNodeState d cs) =
  (returned (logEvent c (Mutable_ID d) (Name_of (n node))),
   mkNodeState d (cs ++ [CallLogEvent (Mutable_ID d) (Name_of (n node))])).
Proof. reflexivity. Qed.

(** [validateAndWriteNewTableLocalityAndZoneConfig], step by step. *)
Lemma run_validateAndWrite c db d cs :
  runState (validateAndWriteNewTableLocalityAndZoneConfig c db)
           (mkNodeState d cs) =
  let V := CallValidateTableLocalityConfig d in
  let W := CallWriteSchemaChange d (InvalidMutationID c) in
  let d' := fst (writeSchemaChange c d (InvalidMutationID c)) in
  match ValidateTableLocalityConfig c d with
  | Some err => (Err err, mkNodeState d (cs ++ [V]))
  | None =>
    match snd (writeSchemaChange c d (InvalidMutationID c)) with
    | Some err => (Err err, mkNodeState d' (cs ++ [V; W]))
    | None =>
      match RegionConfig db with
      | None => (Panic, mkNodeState d' (cs ++ [V; W]))
      | Some rc =>
          (returned (applyZoneConfigForMultiRegionTable c rc d'),
           mkNodeState d' (cs ++ [V; W; CallApplyZoneConfig rc d']))
      end
    end
  end.
Proof.
  unfold validateAndWriteNewTableLocalityAndZoneConfig.
  rewrite run_orReturn, run_do_Validate. cbn [fst snd].
  destruct (ValidateTableLocalityConfig c d); [reflexivity|].
  rewrite run_orReturn, run_do_write. cbn [fst snd].
  rewrite <- !app_assoc. cbn [app].
  destruct (snd (writeSchemaChange c d (InvalidMutationID c))); [reflexivity|].
  destruct (RegionConfig db) as [rc|]; [|reflexivity].
  rewrite run_orReturn, run_do_applyZone. cbn [fst snd].
  rewrite <- !app_assoc. cbn [app].
  destruct (applyZoneConfigForMultiRegionTable c rc _); reflexivity.
Qed.

Lemma andThen_ext (m m' k : M result) s s' :
  runState m s = runState m' s' ->
  runState (andThen m k) s = runState (andThen m' k) s'.
Proof. intros H. rewrite !run_andThen, H. reflexivity. Qed.

Lemma andThen_stops (m k : M result) s res s' :
  runState m s = (res, s') -> res <> Nil ->
  runState (andThen m k) s = (res, s').
Proof.
  intros H Hn. rewrite run_andThen, H. cbn [fst snd].
  destruct res; [contradiction | reflexivity | reflexivity].
Qed.

Ltac run_ends new res d' :=
  exists new, res, d';
  split; [cbn [app]; rewrite ?app_nil_r, <- ?app_assoc; reflexivity|].

(** The three table-level transitions end in the same way: validate, write,
    apply the zone configuration, log. *)
Lemma table_change_then_log c node d d1 cs :
  exists new res d',
    runState (andThen (validateAndWriteNewTableLocalityAndZoneConfig
                         c (dbDesc node))
                      (logAlterTable c node)) (mkNodeState d1 cs)
    = (res, mkNodeState d' (cs ++ new))
    /\ Protocol c node d new res d'.
Proof.
  rewrite run_andThen, run_validateAndWrite. cbv zeta.
  destruct (ValidateTableLocalityConfig c d1) as [err|] eqn:Hv.
  { cbn [fst snd]. run_ends [CallValidateTableLocalityConfig d1] (Err err) d1.
    now apply Invalid. }
  destruct (snd (writeSchemaChange c d1 (InvalidMutationID c))) as [err|] eqn:Hw.
  { cbn [fst snd]. do 3 eexists. split; [reflexivity|].
    apply NotWritten; [exact Hv|]. left. exists err. auto. }
  destruct (RegionConfig (dbDesc node)) as [rc|] eqn:Hr.
  2:{ cbn [fst snd]. do 3 eexists. split; [reflexivity|].
      apply NotWritten; [exact Hv|]. right. auto. }
  destruct (applyZoneConfigForMultiRegionTable c rc
              (fst (writeSchemaChange c d1 (InvalidMutationID c))))
    as [err|] eqn:Hz; cbn [fst snd returned].
  - do 3 eexists. split; [reflexivity|]. now apply ZoneConfigFailed.
  - rewrite run_logAlterTable. rewrite <- app_assoc. cbn [app].
    do 3 eexists. split; [reflexivity|]. now apply TableLogged.
Qed.

Lemma refused_run c node (prog : M result) d cs res :
  runState prog (mkNodeState d cs) = (res, mkNodeState d cs) ->
  res <> Nil ->
  (res = Panic -> missingData node d) ->
  exists new res' d',
    runState (andThen prog (logAlterTable c node)) (mkNodeState d cs)
    = (res', mkNodeState d' (cs ++ new))
    /\ Protocol c node d new res' d'.
Proof.
  intros H Hn Hp. rewrite (andThen_stops _ _ _ _ _ H Hn).
  run_ends (@nil Call) res d. now apply Refused.
Qed.

Lemma global_to_table_then_log c node d cs :
  exists new res d',
    runState (andThen (alterTableLocalityGlobalToRegionalByTable c node)
                      (logAlterTable c node)) (mkNodeState d cs)
    = (res, mkNodeState d' (cs ++ new))
    /\ Protocol c node d new res d'.
Proof.
  destruct (IsLocalityGlobal c d) eqn:Hg.
  - destruct (Locality_of (n node)) as [l|] eqn:Hl.
    + erewrite andThen_ext; [apply (table_change_then_log c node d)|].
      unfold alterTableLocalityGlobalToRegionalByTable. cbn.
      rewrite Hg, Hl. cbn. reflexivity.
    + apply (refused_run c node _ d cs Panic);
        [unfold alterTableLocalityGlobalToRegionalByTable; cbn; rewrite Hg, Hl; reflexivity
        | discriminate | intros _; right; left; exact Hl].
  - destruct (FormatTableLocalityConfig c (LocalityConfig d)) as [f|err] eqn:Hf.
    + eapply refused_run;
        [unfold alterTableLocalityGlobalToRegionalByTable; cbn; rewrite Hg, Hf; reflexivity | discriminate
      | first [discriminate | intros _; right; right; exact Hcols]].
    + eapply refused_run;
        [unfold alterTableLocalityGlobalToRegionalByTable; cbn; rewrite Hg, Hf; reflexivity | discriminate
      | first [discriminate | intros _; right; right; exact Hcols]].
Qed.

Lemma table_to_global_then_log c node d cs :
  exists new res d',
    runState (andThen (alterTableLocalityRegionalByTableToGlobal c node)
                      (logAlterTable c node)) (mkNodeState d cs)
    = (res, mkNodeState d' (cs ++ new))
    /\ Protocol c node d new res d'.
Proof.
  destruct (IsLocalityRegionalByTable c d) eqn:Hg.
  - erewrite andThen_ext; [apply (table_change_then_log c node d)|].
    unfold alterTableLocalityRegionalByTableToGlobal. cbn.
    rewrite Hg. cbn. reflexivity.
  - eapply refused_run;
      [unfold alterTableLocalityRegionalByTableToGlobal; cbn; rewrite Hg; reflexivity | discriminate
      | first [discriminate | intros _; right; right; exact Hcols]].
Qed.

Lemma table_to_table_then_log c node d cs :
  exists new res d',
    runState (andThen (alterTableLocalityRegionalByTableToRegionalByTable c node)
                      (logAlterTable c node)) (mkNodeState d cs)
    = (res, mkNodeState d' (cs ++ new))
    /\ Protocol c node d new res d'.
Proof.
  destruct (IsLocalityRegionalByTable c d) eqn:Hg.
  - destruct (Locality_of (n node)) as [l|] eqn:Hl.
    + erewrite andThen_ext; [apply (table_change_then_log c node d)|].
      unfold alterTableLocalityRegionalByTableToRegionalByTable. cbn.
      rewrite Hg, Hl. cbn. reflexivity.
    + apply (refused_run c node _ d cs Panic);
        [unfold alterTableLocalityRegionalByTableToRegionalByTable; cbn; rewrite Hg, Hl; reflexivity
        | discriminate | intros _; right; left; exact Hl].
  - eapply refused_run;
      [unfold alterTableLocalityRegionalByTableToRegionalByTable; cbn; rewrite Hg; reflexivity | discriminate
      | first [discriminate | intros _; right; right; exact Hcols]].
Qed.

Lemma row_change_then_log c node d cs existingLocality newLocality :
  LocalityConfig d = Some existingLocality ->
  Locality_of (n node) = Some newLocality ->
  LocalityLevel_of newLocality = LocalityLevelRow ->
  exists new res d',
    runState (andThen (alterTableLocalityNonRegionalByRowToRegionalByRow
                         c node existingLocality newLocality)
                      (logAlterTable c node)) (mkNodeState d cs)
    = (res, mkNodeState d' (cs ++ new))
    /\ Protocol c node d new res d'.
Proof.
  intros Hex Hnew Hlevel.
  destruct (String.eqb_spec (RegionalByRowColumn newLocality)
                            (RegionalByRowRegionNotSpecifiedName c)) as [Hc|Hc].
  { eapply refused_run;
      [unfold alterTableLocalityNonRegionalByRowToRegionalByRow;
       rewrite (proj2 (String.eqb_eq _ _) Hc); reflexivity | discriminate
      | first [discriminate | intros _; right; right; exact Hcols]]. }
  apply String.eqb_neq in Hc.
  destruct (FindColumnByName c d (RegionalByRowColumn newLocality))
    as [partCol|err] eqn:Hfind.
  2:{ eapply refused_run;
      [unfold alterTableLocalityNonRegionalByRowToRegionalByRow;
       rewrite Hc; cbn; rewrite Hfind; reflexivity | discriminate
      | first [discriminate | intros _; right; right; exact Hcols]]. }
  destruct (MultiRegionEnumID c (dbDesc node)) as [enumTypeID|err] eqn:Henum.
  2:{ eapply refused_run;
      [unfold alterTableLocalityNonRegionalByRowToRegionalByRow;
       rewrite Hc; cbn; rewrite Hfind, Henum; reflexivity | discriminate
      | first [discriminate | intros _; right; right; exact Hcols]]. }
  destruct (Z.eqb_spec (Type_Oid partCol) (TypeIDToOID c enumTypeID))
    as [Hoid|Hoid].
  2:{ apply Z.eqb_neq in Hoid.
      eapply refused_run;
      [unfold alterTableLocalityNonRegionalByRowToRegionalByRow;
       rewrite Hc; cbn; rewrite Hfind, Henum, Hoid; reflexivity
      | discriminate | discriminate]. }
  destruct (primaryKeyColumns (ColumnNames (PrimaryIndex d))
                              (ColumnDirections (PrimaryIndex d)))
    as [cols|e|] eqn:Hcols.
  2:{ eapply refused_run;
      [unfold alterTableLocalityNonRegionalByRowToRegionalByRow;
       rewrite Hc; cbn; rewrite Hfind, Henum, (proj2 (Z.eqb_eq _ _) Hoid), Hcols;
       reflexivity | discriminate
      | first [discriminate | intros _; right; right; exact Hcols]]. }
  2:{ eapply refused_run;
      [unfold alterTableLocalityNonRegionalByRowToRegionalByRow;
       rewrite Hc; cbn; rewrite Hfind, Henum, (proj2 (Z.eqb_eq _ _) Hoid), Hcols;
       reflexivity | discriminate
      | first [discriminate | intros _; right; right; exact Hcols]]. }
  set (alter := mkAlterTableAlterPrimaryKey (Index_Name (PrimaryIndex d)) cols).
  set (swap := mkLocalityConfigSwap existingLocality
                 (LocalityConfigRegionalByRow c
                    (RegionalByRowColumn newLocality))).
  assert (Hreq : RowRequest c node d alter swap).
  { exists existingLocality, newLocality, partCol, enumTypeID, cols.
    apply String.eqb_neq in Hc. repeat split; auto. }
  rewrite run_andThen.
  unfold alterTableLocalityNonRegionalByRowToRegionalByRow.
  rewrite Hc. cbn.
  rewrite Hfind, Henum, (proj2 (Z.eqb_eq _ _) Hoid), Hcols. cbn.
  fold alter swap.
  destruct (snd (AlterPrimaryKey c d alter swap)) as [err|] eqn:Ha; cbn.
  { do 3 eexists. split; [reflexivity|]. now apply PrimaryKeyNotAltered. }
  destruct (snd (writeSchemaChange c (fst (AlterPrimaryKey c d alter swap))
                   (ClusterVersion_NextMutationID
                      (fst (AlterPrimaryKey c d alter swap)))))
    as [err|] eqn:Hw; cbn.
  { rewrite <- app_assoc. do 3 eexists. split; [reflexivity|].
    now apply RowNotWritten. }
  rewrite <- !app_assoc. cbn [app].
  do 3 eexists. split; [reflexivity|]. now apply RowLogged.
Qed.

Lemma run_getDesc_bind (k : Mutable -> M result) d cs :
  runState (bind getDesc k) (mkNodeState d cs)
  = runState (k d) (mkNodeState d cs).
Proof. reflexivity. Qed.

(** Every run of [startExec] follows the protocol. *)
Lemma startExec_protocol c node d cs :
  exists new res d',
    runState (startExec c node) (mkNodeState d cs)
    = (res, mkNodeState d' (cs ++ new))
    /\ Protocol c node d new res d'.
Proof.
  assert (Hstop : forall res, res <> Nil ->
            (res = Panic -> missingData node d) ->
            exists new res' d',
              runState (ret res) (mkNodeState d cs)
              = (res', mkNodeState d' (cs ++ new))
              /\ Protocol c node d new res' d').
  { intros res Hn Hp. run_ends (@nil Call) res d. now apply Refused. }
  unfold startExec. rewrite run_getDesc_bind.
  destruct (LocalityConfig d) as [existingLocality|] eqn:Hex;
    [|apply Hstop; [discriminate | intros _; left; exact Hex]].
  destruct (Locality existingLocality) eqn:Hkind;
    (destruct (Locality_of (n node)) as [l|] eqn:Hnew;
     [destruct (LocalityLevel_of l) eqn:Hlevel|]);
    try (apply Hstop;
         [discriminate
         | first [discriminate | intros _; right; left; exact Hnew]]).
  - run_ends (@nil Call) Nil d. now apply (NothingToDo c node d existingLocality l).
  - apply global_to_table_then_log.
  - now apply (row_change_then_log c node d cs existingLocality l).
  - apply table_to_global_then_log.
  - apply table_to_table_then_log.
  - now apply (row_change_then_log c node d cs existingLocality l).
Qed.

Lemma primaryKeyColumns_cons col names dir dirs :
  primaryKeyColumns (col :: names) (dir :: dirs) =
  match dir with
  | IndexDescriptor_ASC =>
      match primaryKeyColumns names dirs with
      | ColsOk cols => ColsOk (mkIndexElem col Ascending :: cols)
      | other => other
      end
  | IndexDescriptor_DESC =>
      match primaryKeyColumns names dirs with
      | ColsOk cols => ColsOk (mkIndexElem col Descending :: cols)
      | other => other
      end
  | _ => ColsErr (AssertionFailedf "unknown direction: %v" [ArgDirection dir])
  end.
Proof. destruct dir; reflexivity. Qed.

(** X13: the loop that prepares the new primary key keeps the key as it
    is: when it succeeds, the columns it hands on are the existing
    primary-key columns, in order, each with the direction of the existing
    key (ASC as Ascending, DESC as Descending); it fails with an assertion
    error exactly on the first direction that is neither, and it panics only
    if the descriptor has fewer directions than column names. *)
Theorem primaryKeyColumns_keeps_the_key names dirs :
  match primaryKeyColumns names dirs with
  | ColsOk cols =>
      map Column cols = names
      /\ Forall2 (fun col dir =>
                    (dir = IndexDescriptor_ASC /\ Direction_of col = Ascending)
                    \/ (dir = IndexDescriptor_DESC
                        /\ Direction_of col = Descending))
                 cols (firstn (List.length names) dirs)
  | ColsErr e =>
      exists before dir after,
        dirs = before ++ dir :: after
        /\ (List.length before < List.length names)%nat
        /\ Forall (fun d => d = IndexDescriptor_ASC \/ d = IndexDescriptor_DESC)
                  before
        /\ dir <> IndexDescriptor_ASC /\ dir <> IndexDescriptor_DESC
        /\ e = AssertionFailedf "unknown direction: %v" [ArgDirection dir]
  | ColsPanic =>
      (List.length dirs < List.length names)%nat
      /\ Forall (fun d => d = IndexDescriptor_ASC \/ d = IndexDescriptor_DESC)
                dirs
  end.
Proof.
  revert dirs. induction names as [|col names IH]; intros dirs.
  - cbn. split; [reflexivity | constructor].
  - destruct dirs as [|dir dirs].
    + cbn. split; [lia | constructor].
    + rewrite primaryKeyColumns_cons. specialize (IH dirs).
      destruct dir as [| |v].
      * destruct (primaryKeyColumns names dirs) as [cols|e|].
        -- destruct IH as [Hn Hd]. cbn [map Column List.length firstn].
           split; [now rewrite Hn|]. constructor; auto.
        -- destruct IH as (before & dir & after & H1 & H2 & H3 & H4 & H5 & H6).
           exists (IndexDescriptor_ASC :: before), dir, after.
           subst dirs. cbn [List.length app]. repeat split; auto; try lia.
        -- destruct IH as [Hl Ha]. cbn [List.length]. split; [lia|].
           constructor; auto.
      * destruct (primaryKeyColumns names dirs) as [cols|e|].
        -- destruct IH as [Hn Hd]. cbn [map Column List.length firstn].
           split; [now rewrite Hn|]. constructor; auto.
        -- destruct IH as (before & dir & after & H1 & H2 & H3 & H4 & H5 & H6).
           exists (IndexDescriptor_DESC :: before), dir, after.
           subst dirs. cbn [List.length app]. repeat split; auto; try lia.
        -- destruct IH as [Hl Ha]. cbn [List.length]. split; [lia|].
           constructor; auto.
      * exists [], (IndexDescriptor_Direction_other v), dirs.
        cbn [List.length app]. repeat split; auto; try lia; discriminate.
Qed.

Lemma primaryKeyColumns_names names : forall dirs cols,
  primaryKeyColumns names dirs = ColsOk cols -> map Column cols = names.
Proof.
  induction names as [|col names IH]; intros dirs cols H.
  - cbn in H. injection H as <-. reflexivity.
  - destruct dirs as [|dir dirs]; [discriminate H|].
    rewrite primaryKeyColumns_cons in H.
    destruct dir; try discriminate H;
      destruct (primaryKeyColumns names dirs) as [cols'|e|] eqn:E;
      try discriminate H; injection H as <-;
      cbn [map Column]; now rewrite (IH dirs cols' E).
Qed.


Lemma pair_of_parts {A B} (p : A * B) a b : fst p = a -> snd p = b -> p = (a, b).
Proof. destruct p. cbn. congruence. Qed.

(** The run of [startExec] from [s], by the protocol it follows. *)
Lemma startExec_run c node s :
  exists new,
    calls (execState (startExec c node) s) = calls s ++ new
    /\ Protocol c node (tableDesc s) new
         (evalState (startExec c node) s)
         (tableDesc (execState (startExec c node) s)).
Proof.
  destruct s as [d cs].
  destruct (startExec_protocol c node d cs) as (new & res & d' & Hrun & P).
  unfold evalState, execState. rewrite Hrun. exists new. auto.
Qed.

Ltac in_calls H :=
  cbn [In] in H;
  repeat match type of H with
         | _ \/ _ => destruct H as [H | H]
         | False => contradiction
         end;
  try discriminate H.

(** X9: [startExec] writes the audit event at most once, as its very
    last call, for the ID of the descriptor as the run leaves it and the
    table name of the statement, and only after the schema change has been
    written successfully; what [logEvent] returns is then the result. *)
Theorem event_logged_last_after_successful_write c node s :
  let res := evalState (startExec c node) s in
  let s' := execState (startExec c node) s in
  exists new,
    calls s' = calls s ++ new
    /\ forall id name,
         In (CallLogEvent id name) new ->
         new = removelast new ++ [CallLogEvent id name]
         /\ (forall id' name', ~ In (CallLogEvent id' name') (removelast new))
         /\ id = Mutable_ID (tableDesc s')
         /\ name = Name_of (n node)
         /\ res = returned (logEvent c id name)
         /\ exists d m, In (CallWriteSchemaChange d m) new
                        /\ writeSchemaChange c d m = (tableDesc s', None).
Proof.
  cbv zeta.
  destruct (startExec_run c node s) as (new & Hcalls & P).
  exists new. split; [exact Hcalls|].
  intros id name Hin.
  destruct P; in_calls Hin; injection Hin as <- <-;
    cbn [removelast app];
    (split; [reflexivity|]);
    (split; [intros id' name' Hin'; in_calls Hin'|]);
    (split; [reflexivity|]); (split; [reflexivity|]);
    (split; [reflexivity|]).
  - exists d1, (InvalidMutationID c). split; [cbn; auto|].
    now apply pair_of_parts.
  - exists (fst (AlterPrimaryKey c (tableDesc s) alter swap)),
           (ClusterVersion_NextMutationID
              (fst (AlterPrimaryKey c (tableDesc s) alter swap))).
    split; [cbn; auto|]. now apply pair_of_parts.
Qed.

(** X11: within a run of [startExec], a descriptor is written only after
    it has passed [ValidateTableLocalityConfig] (with the invalid mutation
    ID) or has come out of a successful [AlterPrimaryKey] (with its next
    mutation ID), and the zone configuration is applied only to a descriptor
    that has just been written successfully. *)
Theorem writes_follow_validation_or_primary_key_change c node s :
  let s' := execState (startExec c node) s in
  exists new,
    calls s' = calls s ++ new
    /\ (forall d m,
          In (CallWriteSchemaChange d m) new ->
          (m = InvalidMutationID c
           /\ In (CallValidateTableLocalityConfig d) new
           /\ ValidateTableLocalityConfig c d = None)
          \/ (m = ClusterVersion_NextMutationID d
              /\ exists alter swap,
                   In (CallAlterPrimaryKey (tableDesc s) alter swap) new
                   /\ AlterPrimaryKey c (tableDesc s) alter swap = (d, None)))
    /\ (forall rc d,
          In (CallApplyZoneConfig rc d) new ->
          RegionConfig (dbDesc node) = Some rc
          /\ exists d1,
               In (CallWriteSchemaChange d1 (InvalidMutationID c)) new
               /\ writeSchemaChange c d1 (InvalidMutationID c) = (d, None)).
Proof.
  cbv zeta.
  destruct (startExec_run c node s) as (new & Hcalls & P).
  exists new. split; [exact Hcalls|]. split.
  - intros d m Hin.
    destruct P; in_calls Hin; injection Hin as <- <-;
      try (left; repeat split; [cbn; auto | assumption]).
    + right. split; [reflexivity|]. exists alter, swap.
      split; [cbn; auto | now apply pair_of_parts].
    + right. split; [reflexivity|]. exists alter, swap.
      split; [cbn; auto | now apply pair_of_parts].
  - intros rc' d Hin.
    destruct P; in_calls Hin; injection Hin as <- <-;
      (split; [assumption|]); exists d1;
      (split; [cbn; auto | now apply pair_of_parts]).
Qed.

(** X14: [AlterPrimaryKey] is called at most once, first of all calls and
    on the descriptor as [startExec] found it, and only when the statement
    asks for REGIONAL BY ROW with a named column that exists in the table and
    has the type of the database's region enum; the new primary key has the
    name and the column names of the existing one, and the swap goes from the
    existing locality to REGIONAL BY ROW on that column. *)
Theorem primary_key_change_is_guarded c node s :
  let s' := execState (startExec c node) s in
  exists new,
    calls s' = calls s ++ new
    /\ forall d alter swap,
         In (CallAlterPrimaryKey d alter swap) new ->
         d = tableDesc s
         /\ (exists rest, new = CallAlterPrimaryKey d alter swap :: rest
                          /\ forall d' alter' swap',
                               ~ In (CallAlterPrimaryKey d' alter' swap') rest)
         /\ RowRequest c node (tableDesc s) alter swap
         /\ PrimaryKey_Name alter = Index_Name (PrimaryIndex (tableDesc s))
         /\ map Column (Columns alter)
            = ColumnNames (PrimaryIndex (tableDesc s))
         /\ LocalityConfig (tableDesc s) = Some (OldLocalityConfig swap).
Proof.
  cbv zeta.
  destruct (startExec_run c node s) as (new & Hcalls & P).
  exists new. split; [exact Hcalls|].
  intros d alter' swap' Hin.
  destruct P as [| | | | | |alter swap err Hreq|alter swap err Hreq|alter swap Hreq];
    in_calls Hin; injection Hin as <- <- <-;
    (split; [reflexivity|]);
    (split; [eexists; split; [reflexivity|];
             intros d' a' s'' Hin'; in_calls Hin'|]);
    (split; [exact Hreq|]);
    destruct Hreq as (ex & l & pc & en & cols & H1 & H2 & H3 & H4 & H5 & H6
                      & H7 & H8 & -> & ->);
    cbn [PrimaryKey_Name Columns OldLocalityConfig];
    (split; [reflexivity|]);
    (split; [exact (primaryKeyColumns_names _ _ _ H8) | exact H1]).
Qed.

Lemma protocol_logged c node d new res d' id name :
  Protocol c node d new res d' ->
  In (CallLogEvent id name) new ->
  res = returned (logEvent c id name).
Proof.
  intros P Hin. destruct P; in_calls Hin; injection Hin as <- <-; reflexivity.
Qed.

(** X10: [startExec] returns [nil] in two cases only: the table is GLOBAL
    and the statement asks for GLOBAL, and then nothing at all is done (no
    call, no event, the descriptor untouched); or the whole chain of calls has
    succeeded and ends with the audit event, whose [logEvent] returned
    [nil]. *)
Theorem nil_iff_logged_or_nothing_to_do c node s :
  let res := evalState (startExec c node) s in
  let s' := execState (startExec c node) s in
  res = Nil
  <-> (exists existingLocality newLocality,
         LocalityConfig (tableDesc s) = Some existingLocality
         /\ Locality existingLocality = TableDescriptor_LocalityConfig_Global_
         /\ Locality_of (n node) = Some newLocality
         /\ LocalityLevel_of newLocality = LocalityLevelGlobal
         /\ s' = s)
      \/ (exists before,
            calls s' = calls s ++ before ++
                       [CallLogEvent (Mutable_ID (tableDesc s'))
                                     (Name_of (n node))]
            /\ logEvent c (Mutable_ID (tableDesc s')) (Name_of (n node))
               = None).
Proof.
  cbv zeta. split.
  - destruct (startExec_run c node s) as (new & Hcalls & P).
    intros Hnil. rewrite Hcalls.
    assert (Hret : forall e, returned e = Nil -> e = None).
    { intros [e|]; [discriminate | reflexivity]. }
    remember (evalState (startExec c node) s) as res eqn:Hres.
    remember (tableDesc (execState (startExec c node) s)) as d' eqn:Hd'.
    destruct P as [ex l H1 H2 H3 H4|res Hn _| | d1 res' Hv Hw| | | | |];
      try discriminate Hnil.
    + left. exists ex, l. repeat split; auto.
      destruct s as [d cs], (execState (startExec c node) (mkNodeState d cs))
        as [d2 cs2].
      cbn in *. rewrite app_nil_r in Hcalls. congruence.
    + contradiction.
    + destruct Hw as [(err & _ & ->) | (_ & _ & ->)]; discriminate Hnil.
    + right. eexists [_; _; _]. split; [reflexivity|]. now apply Hret.
    + right. eexists [_; _]. split; [reflexivity|]. now apply Hret.
  - intros [(ex & l & H1 & H2 & H3 & H4 & _) | (before & Hcalls & Hlog)].
    + destruct s as [d cs]. cbn in H1.
      unfold evalState, startExec. rewrite run_getDesc_bind.
      rewrite H1, H2, H3, H4. reflexivity.
    + destruct (startExec_run c node s) as (new & Hnew & P).
      rewrite Hnew in Hcalls. apply app_inv_head in Hcalls.
      rewrite (protocol_logged c node _ _ _ _
                 (Mutable_ID (tableDesc (execState (startExec c node) s)))
                 (Name_of (n node)) P), Hlog; [reflexivity|].
      rewrite Hcalls. apply in_or_app. right. left. reflexivity.
Qed.

(** X12: a table that is REGIONAL BY ROW cannot be altered: whatever the
    statement asks for, [startExec] returns an error (unimplemented, with
    issue 59632 for GLOBAL and REGIONAL BY TABLE and without issue for
    REGIONAL BY ROW; an assertion failure for an unknown level), makes no call
    and leaves the descriptor as it is. *)
Theorem regional_by_row_cannot_be_altered c node s existingLocality newLocality :
  LocalityConfig (tableDesc s) = Some existingLocality ->
  Locality existingLocality = TableDescriptor_LocalityConfig_RegionalByRow_ ->
  Locality_of (n node) = Some newLocality ->
  runState (startExec c node) s =
  (Err (match LocalityLevel_of newLocality with
        | LocalityLevelGlobal | LocalityLevelTable =>
            unimplemented_NewWithIssue 59632 "implementation pending"
        | LocalityLevelRow =>
            unimplemented_New "alter table locality from REGIONAL BY ROW"
                              "implementation pending"
        | LocalityLevelUnknown =>
            AssertionFailedf "unknown table locality: %v"
                             [ArgLocality newLocality]
        end), s).
Proof.
  destruct s as [d cs]. cbn [tableDesc]. intros H1 H2 H3.
  unfold startExec. rewrite run_getDesc_bind, H1, H2, H3.
  destruct (LocalityLevel_of newLocality); reflexivity.
Qed.

(** The REGIONAL BY ROW table of the scenarios, asked to become GLOBAL. *)
Lemma regional_by_row_cannot_be_altered_witness :
  runState (startExec (sql_scenarios.collaborators true)
                      (sql_scenarios.node LocalityLevelGlobal))
           (sql_scenarios.start sql_scenarios.regionalByRowTable)
  = (Err (unimplemented_NewWithIssue 59632 "implementation pending"),
     sql_scenarios.start sql_scenarios.regionalByRowTable).
Proof.
  apply (regional_by_row_cannot_be_altered
           (sql_scenarios.collaborators true)
           (sql_scenarios.node LocalityLevelGlobal)
           (sql_scenarios.start sql_scenarios.regionalByRowTable)
           (mkLocalityConfig TableDescriptor_LocalityConfig_RegionalByRow_ "")
           (mkLocality LocalityLevelGlobal "us-east1" "region"));
    reflexivity.
Defined.



(** X15: the planner hands out a node for [startExec] only when schema
    changes are enabled, the table has been resolved, the user holds the
    privilege checked by [CheckPrivilege] on it, and the table's parent
    database has been found and is multi-region; the node carries the
    statement, that table and that database.  And when the privilege check
    fails, the error is the InsufficientPrivilege error naming the table,
    whatever error the check itself returned. *)
Theorem planned_change_is_authorized c stmt :
  (forall node desc,
      AlterTableLocality c stmt = inl (alterTableSetLocality node desc) ->
      checkSchemaChangeEnabled c "ALTER TABLE" = None
      /\ ResolveMutableTableDescriptorEx c (Name_of stmt) (negb (IfExists stmt))
         = inl (Some desc)
      /\ CheckPrivilege c desc = None
      /\ GetImmutableDatabaseByID c (GetParentID desc) = inl (dbDesc node)
      /\ IsMultiRegion c (dbDesc node) = true
      /\ n node = stmt)
  /\ (forall desc err,
        checkSchemaChangeEnabled c "ALTER TABLE" = None ->
        ResolveMutableTableDescriptorEx c (Name_of stmt) (negb (IfExists stmt))
        = inl (Some desc) ->
        CheckPrivilege c desc = Some err ->
        AlterTableLocality c stmt
        = inr (pgerror_Newf InsufficientPrivilege
                 "must be owner of table %s or have CREATE privilege on table %s"
                 [ArgString (GetName desc); ArgString (GetName desc)])).
Proof.
  split.
  - intros node desc. unfold AlterTableLocality.
    destruct (checkSchemaChangeEnabled c "ALTER TABLE"); [discriminate|].
    destruct (ResolveMutableTableDescriptorEx c (Name_of stmt)
                (negb (IfExists stmt))) as [[tableDesc|]|]; try discriminate.
    destruct (CheckPrivilege c tableDesc) eqn:Hp; [discriminate|].
    destruct (GetImmutableDatabaseByID c (GetParentID tableDesc))
      as [db|] eqn:Hdb; [|discriminate].
    destruct (IsMultiRegion c db) eqn:Hm; [|discriminate].
    cbn [negb]. intros H. injection H as <- <-. cbn [dbDesc n].
    repeat split; auto.
  - intros desc err H1 H2 H3. unfold AlterTableLocality.
    rewrite H1, H2, H3. reflexivity.
Qed.

(** The statement on table "t" of the scenarios is planned; its node carries
    the table and the multi-region database 50. *)
Lemma planned_change_is_authorized_witness :
  AlterTableLocality (sql_scenarios.collaborators true)
                     (sql_scenarios.statement LocalityLevelTable)
  = inl (alterTableSetLocality (sql_scenarios.node LocalityLevelTable)
                               sql_scenarios.globalTable)
  /\ IsMultiRegion (sql_scenarios.collaborators true) sql_scenarios.db = true.
Proof.
  split; [reflexivity|].
  apply (proj1 (planned_change_is_authorized
                  (sql_scenarios.collaborators true)
                  (sql_scenarios.statement LocalityLevelTable))
           (sql_scenarios.node LocalityLevelTable) sql_scenarios.globalTable
           eq_refl).
Defined.

(** The GLOBAL table of the scenarios made REGIONAL BY TABLE: the run ends
    with the event for table 52, "t", and returns what [logEvent] returned. *)
Lemma event_logged_last_after_successful_write_witness :
  evalState (startExec (sql_scenarios.collaborators true)
                       (sql_scenarios.node LocalityLevelTable))
            (sql_scenarios.start sql_scenarios.globalTable)
  = returned (logEvent (sql_scenarios.collaborators true) 52 "t").
Proof.
  destruct (event_logged_last_after_successful_write
              (sql_scenarios.collaborators true)
              (sql_scenarios.node LocalityLevelTable)
              (sql_scenarios.start sql_scenarios.globalTable))
    as (new & Hcalls & Hev).
  cbn in Hcalls. subst new.
  destruct (Hev 52 "t") as (_ & _ & _ & _ & Hres & _);
    [cbn; auto 6 | exact Hres].
Defined.

(** GLOBAL to GLOBAL: [nil], and the state is the one the run started
    from. *)
Lemma nil_iff_logged_or_nothing_to_do_witness :
  evalState (startExec (sql_scenarios.collaborators true)
                       (sql_scenarios.node LocalityLevelGlobal))
            (sql_scenarios.start sql_scenarios.globalTable) = Nil.
Proof.
  apply (proj2 (nil_iff_logged_or_nothing_to_do
                  (sql_scenarios.collaborators true)
                  (sql_scenarios.node LocalityLevelGlobal)
                  (sql_scenarios.start sql_scenarios.globalTable))).
  left. do 2 eexists. repeat split; reflexivity.
Defined.

(** The GLOBAL table of the scenarios made REGIONAL BY TABLE: the
    descriptor that is written is one that has been validated. *)
Lemma writes_follow_validation_or_primary_key_change_witness :
  let d := sql_scenarios.setLocality
             (mkLocalityConfig TableDescriptor_LocalityConfig_RegionalByTable_
                               "us-east1")
             sql_scenarios.globalTable in
  In (CallValidateTableLocalityConfig d)
     (calls (execState (startExec (sql_scenarios.collaborators true)
                                  (sql_scenarios.node LocalityLevelTable))
                       (sql_scenarios.start sql_scenarios.globalTable)))
  /\ ValidateTableLocalityConfig (sql_scenarios.collaborators true) d = None.
Proof.
  cbv zeta.
  destruct (writes_follow_validation_or_primary_key_change
              (sql_scenarios.collaborators true)
              (sql_scenarios.node LocalityLevelTable)
              (sql_scenarios.start sql_scenarios.globalTable))
    as (new & Hcalls & Hw & _).
  rewrite Hcalls. cbn in Hcalls. subst new.
  destruct (Hw (sql_scenarios.setLocality
                  (mkLocalityConfig
                     TableDescriptor_LocalityConfig_RegionalByTable_ "us-east1")
                  sql_scenarios.globalTable) 0)
    as [(_ & Hin & Hv) | (_ & alter & swap & Ha & _)].
  - right. left. reflexivity.
  - split; [exact Hin | exact Hv].
  - in_calls Ha.
Defined.

(** The GLOBAL table of the scenarios made REGIONAL BY ROW on column
    "region": the primary key handed to [AlterPrimaryKey] is (id, ts). *)
Lemma primary_key_change_is_guarded_witness :
  exists alter swap,
    In (CallAlterPrimaryKey sql_scenarios.globalTable alter swap)
       (calls (execState (startExec (sql_scenarios.collaborators true)
                                    (sql_scenarios.node LocalityLevelRow))
                         (sql_scenarios.start sql_scenarios.globalTable)))
    /\ map Column (Columns alter) = ["id"; "ts"].
Proof.
  destruct (primary_key_change_is_guarded
              (sql_scenarios.collaborators true)
              (sql_scenarios.node LocalityLevelRow)
              (sql_scenarios.start sql_scenarios.globalTable))
    as (new & Hcalls & Hg).
  rewrite Hcalls. cbn in Hcalls. subst new.
  do 2 eexists. split; [left; reflexivity|].
  eapply Hg. left. reflexivity.
Defined.

End sql_facts.
